(** * pathmanager: an in-memory mirror of a directory tree

    A shallow embedding of [src/pathmanager/pathmanager.py] (classes
    [Folder] and [PathManager]) together with the properties that its
    specification states about attribute lookup, loading, reloading,
    [mkdir] and [remove].

    Layout:
    - [Str]     : the methods of Python's [str] that the program calls;
    - [OsPath]  : the functions of [os.path] (POSIX flavour) that it calls;
    - [Folder], [DirEntry], [Platform] : the data model and the interface
      of the operating system primitives the program delegates to;
    - the methods of [Folder] and [PathManager];
    - the theorems. *)

From Stdlib Require Import Ascii.
From stdpp Require Import gmap strings list fin_maps pretty.

#[local] Set Warnings "-register-all".

(** ** Python [str] methods *)

Module Str.

(** [s.replace(old, new)] for one-character [old] and [new]. *)
Fixpoint replace (old new : ascii) (s : string) : string :=
  match s with
  | EmptyString => EmptyString
  | String c r =>
      String (if Ascii.eqb c old then new else c) (replace old new r)
  end.

(** [c in s] for a character [c]. *)
Fixpoint has_char (c : ascii) (s : string) : bool :=
  match s with
  | EmptyString => false
  | String c' r => Ascii.eqb c' c || has_char c r
  end.

(** [s.startswith(c)] and [s.endswith(c)] for a character [c]. *)
Definition startswith (c : ascii) (s : string) : bool :=
  match s with
  | String c' _ => Ascii.eqb c' c
  | EmptyString => false
  end.

Fixpoint endswith (c : ascii) (s : string) : bool :=
  match s with
  | EmptyString => false
  | String c' EmptyString => Ascii.eqb c' c
  | String _ r => endswith c r
  end.

(** [s.lstrip(c)]. *)
Fixpoint lstrip (c : ascii) (s : string) : string :=
  match s with
  | String c' r => if Ascii.eqb c' c then lstrip c r else s
  | EmptyString => EmptyString
  end.

(** [s.rstrip(c)]. *)
Fixpoint rstrip (c : ascii) (s : string) : string :=
  match s with
  | EmptyString => EmptyString
  | String c' r =>
      match rstrip c r with
      | EmptyString => if Ascii.eqb c' c then EmptyString else String c' EmptyString
      | r' => String c' r'
      end
  end.

(** [s.split(c)]: never the empty list, [''.split(c) == ['']]. *)
Fixpoint split (c : ascii) (s : string) : list string :=
  match s with
  | EmptyString => [EmptyString]
  | String c' r =>
      if Ascii.eqb c' c then EmptyString :: split c r
      else match split c r with
           | h :: t => String c' h :: t
           | [] => [String c' EmptyString]
           end
  end.

(** [c.join(l)]. *)
Fixpoint join (c : ascii) (l : list string) : string :=
  match l with
  | [] => EmptyString
  | [x] => x
  | x :: r => x +:+ String c (join c r)
  end.

(** [c * n]. *)
Fixpoint times (c : ascii) (n : nat) : string :=
  match n with
  | O => EmptyString
  | S n' => String c (times c n')
  end.

(** [s.startswith(p)] for a string [p]. *)
Fixpoint startswith_str (p s : string) : bool :=
  match p, s with
  | EmptyString, _ => true
  | String a p', String b s' => Ascii.eqb a b && startswith_str p' s'
  | String _ _, EmptyString => false
  end.

(** [sub in s] for a string [sub]. *)
Fixpoint contains (sub s : string) : bool :=
  startswith_str sub s ||
  match s with
  | EmptyString => false
  | String _ r => contains sub r
  end.

End Str.

(** ** [os.path] on a POSIX platform *)

Module OsPath.

Definition sep : ascii := "/"%char.

(** [posixpath.isabs]. *)
Definition isabs (s : string) : bool := Str.startswith sep s.

(** One round of the loop of [posixpath.join]. *)
Definition join2 (path b : string) : string :=
  if Str.startswith sep b || String.eqb path "" then b
  else if Str.endswith sep path then path +:+ b
  else path +:+ String sep b.

(** [os.path.join(a, *p)]. *)
Definition join (a : string) (p : list string) : string :=
  fold_left join2 p a.

(** [(p[:i], p[i:])] for [i = p.rfind('/') + 1], the cut that both
    [basename] and [dirname] start from. *)
Fixpoint rcut (p : string) : string * string :=
  match p with
  | EmptyString => (EmptyString, EmptyString)
  | String c r =>
      match rcut r with
      | (EmptyString, t) =>
          if Ascii.eqb c sep then (String c EmptyString, t)
          else (EmptyString, String c t)
      | (h, t) => (String c h, t)
      end
  end.

(** [posixpath.basename]. *)
Definition basename (p : string) : string := snd (rcut p).

(** [posixpath.dirname]. *)
Definition dirname (p : string) : string :=
  let head := fst (rcut p) in
  if negb (String.eqb head "")
     && negb (String.eqb head (Str.times sep (String.length head)))
  then Str.rstrip sep head
  else head.

(** The number that [posixpath.normpath] calls [initial_slashes]:
    POSIX keeps exactly two leading slashes and folds three or more. *)
Definition initial_slashes (path : string) : nat :=
  if Str.startswith sep path then
    if Str.startswith_str "//" path && negb (Str.startswith_str "///" path)
    then 2 else 1
  else 0.

(** The body of the loop of [posixpath.normpath] over the components. *)
Definition norm_step (initial : nat) (new_comps : list string)
    (comp : string) : list string :=
  if String.eqb comp "" || String.eqb comp "." then new_comps
  else if negb (String.eqb comp "..")
          || (Nat.eqb initial 0 && Nat.eqb (length new_comps) 0)
          || (negb (Nat.eqb (length new_comps) 0)
              && String.eqb (List.last new_comps "") "..")
  then new_comps ++ [comp]
  else if negb (Nat.eqb (length new_comps) 0) then removelast new_comps
  else new_comps.

Definition norm_comps (initial : nat) (comps : list string) : list string :=
  fold_left (norm_step initial) comps [].

(** [posixpath.normpath]. *)
Definition normpath (path : string) : string :=
  if String.eqb path "" then "."
  else
    let initial := initial_slashes path in
    let comps := norm_comps initial (Str.split sep path) in
    let path' := Str.times sep initial +:+ Str.join sep comps in
    if String.eqb path' "" then "." else path'.

(** [posixpath.abspath], with the result of [os.getcwd()] as [cwd]. *)
Definition abspath (cwd path : string) : string :=
  normpath (if isabs path then path else join cwd [path]).

(** [genericpath.commonprefix] on two lists of components: the source
    scans the lexicographic minimum against the maximum, which for two
    lists is their longest common prefix. *)
Fixpoint commonprefix (l1 l2 : list string) : list string :=
  match l1, l2 with
  | x :: r1, y :: r2 => if String.eqb x y then x :: commonprefix r1 r2 else []
  | _, _ => []
  end.

(** The component list that [relpath] computes from an absolute path:
    [tail = abspath(p).lstrip(sep); tail.split(sep) if tail else []]. *)
Definition tail_list (cwd p : string) : list string :=
  let tail := Str.lstrip sep (abspath cwd p) in
  if String.eqb tail "" then [] else Str.split sep tail.

(** [posixpath.relpath(path, start)]; [None] is the [ValueError] raised
    for an empty [path]. *)
Definition relpath (cwd path start : string) : option string :=
  if String.eqb path "" then None
  else
    let start_list := tail_list cwd start in
    let path_list := tail_list cwd path in
    let i := length (commonprefix start_list path_list) in
    let rel_list :=
      List.repeat ".." (length start_list - i) ++ List.skipn i path_list in
    match rel_list with
    | [] => Some "."
    | a :: p => Some (join a p)
    end.

End OsPath.

(** ** Data model *)

(** The dataclass [Folder]: both dictionaries are keyed by sanitized
    names; [subfolders] holds the child nodes themselves. *)
Inductive Folder : Type := mkFolder {
  name : string;
  parent_path : string;
  subfolders : gmap string Folder;
  files : gmap string string }.

Definition set_subfolders (f : Folder) (m : gmap string Folder) : Folder :=
  mkFolder (name f) (parent_path f) m (files f).

Definition set_files (f : Folder) (m : gmap string string) : Folder :=
  mkFolder (name f) (parent_path f) (subfolders f) m.

(** [PathManager(Folder)]: a folder that remembers the [root] string it was
    constructed with. *)
Record PathManager : Type := mkPathManager {
  root : string;
  node : Folder }.

(** What [os.scandir] enumerates.  A directory entry carries the listing
    that [os.scandir(entry.path)] gives for it, so a value of this type is
    a finite directory tree; [EOther] is an entry for which both
    [is_dir()] and [is_file()] are false. *)
Inductive DirEntry : Type :=
| EDir (entry_name : string) (children : list DirEntry)
| EFile (entry_name : string)
| EOther (entry_name : string).

(** The operating system primitives that [remove] and [mkdir] delegate to,
    and the working directory that [os.path.relpath] reads.  Each
    primitive returns whether it succeeded (it raises [OSError] otherwise)
    and the disk it leaves behind. *)
Class Platform : Type := {
  disk : Type;
  getcwd : string;
  getcwd_isabs : OsPath.isabs getcwd = true;
  (** [shutil.rmtree(path)]: recursive delete of a directory. *)
  rmtree : string → disk → bool * disk;
  (** [os.remove(path)]: delete of a single file. *)
  os_remove : string → disk → bool * disk;
  (** [os.makedirs(path, exist_ok=True)]: create a directory chain. *)
  makedirs_exist_ok : string → disk → bool * disk;
  (** There is no directory with an empty name. *)
  makedirs_empty : ∀ d, fst (makedirs_exist_ok "" d) = false }.

(** What a method call hands back, and what it may raise. *)
Inductive value : Type :=
| VNone
| VStr (s : string)
| VFolder (f : Folder).

Inductive exn : Type :=
| AttributeError (msg : string)
| ValueError (msg : string)
| OSError (path : string).

Inductive outcome : Type :=
| Return (v : value)
| Raise (e : exn).

(** ** The methods of [Folder] *)

Definition sanitize_folder (s : string) : string := Str.replace " " "_" s.

Definition sanitize_file (s : string) : string :=
  Str.replace " " "_" (Str.replace "." "_" s).

(** [Folder.dir]. *)
Definition dir (self : Folder) : string :=
  OsPath.join (parent_path self) [name self].

(** [Folder.__getattr__]. *)
Definition getattr (self : Folder) (item : string) : outcome :=
  let folder_name := Str.replace "_" " " item in
  match subfolders self !! folder_name with
  | Some sub => Return (VFolder sub)
  | None =>
      match subfolders self !! item with
      | Some sub => Return (VFolder sub)
      | None =>
          match files self !! item with
          | Some path => Return (VStr path)
          | None =>
              Raise (AttributeError
                       ("'" +:+ item +:+ "' not found in folder '"
                            +:+ name self +:+ "'"))
          end
      end
  end.

(** The loop of [Folder.mkdir]: walk [path_parts] from [current_folder],
    creating the missing child for each part and descending into it.  The
    source mutates the nodes in place; here the updated child is stored
    back under its key. *)
Fixpoint mkdir_walk (current_folder : Folder) (path_parts : list string)
    : Folder :=
  match path_parts with
  | [] => current_folder
  | part :: rest =>
      let clean_part := Str.replace " " "_" part in
      let child :=
        match subfolders current_folder !! clean_part with
        | Some existing => existing
        | None => mkFolder part (dir current_folder) ∅ ∅
        end in
      set_subfolders current_folder
        (<[clean_part := mkdir_walk child rest]> (subfolders current_folder))
  end.

(** The state a method runs in: the node it is called on, the disk, and
    the lines printed so far. *)
Record world `{Platform} : Type := mkWorld {
  self : Folder;
  fs : disk;
  stdout : list string }.

Arguments mkWorld {_} _ _ _.

Section Methods.
Context `{Platform}.

(** [Folder.remove]. *)
Definition remove (name_ : string) (w : world) : outcome * world :=
  let clean_name_with_spaces := Str.replace "_" " " name_ in
  let clean_name_with_underscores := Str.replace " " "_" name_ in
  match subfolders (self w) !! clean_name_with_underscores with
  | Some sub =>
      let full_path := OsPath.join (dir (self w)) [name sub] in
      match rmtree full_path (fs w) with
      | (true, d) =>
          let self' :=
            set_subfolders (self w)
              (delete clean_name_with_underscores (subfolders (self w))) in
          (Return VNone,
           mkWorld self' d
             (stdout w ++ ["Subfolder '" +:+ clean_name_with_spaces
                           +:+ "' has been removed from '" +:+ dir self'
                           +:+ "'"]))
      | (false, d) => (Raise (OSError full_path), mkWorld (self w) d (stdout w))
      end
  | None =>
      match files (self w) !! clean_name_with_underscores with
      | Some full_path =>
          match os_remove full_path (fs w) with
          | (true, d) =>
              let self' :=
                set_files (self w)
                  (delete clean_name_with_underscores (files (self w))) in
              (Return VNone,
               mkWorld self' d
                 (stdout w ++ ["File '" +:+ clean_name_with_spaces
                               +:+ "' has been removed from '" +:+ dir self'
                               +:+ "'"]))
          | (false, d) =>
              (Raise (OSError full_path), mkWorld (self w) d (stdout w))
          end
      | None =>
          (Return VNone,
           mkWorld (self w) (fs w)
             (stdout w ++ ["'" +:+ clean_name_with_spaces
                           +:+ "' not found in '" +:+ dir (self w) +:+ "'"]))
      end
  end.

(** [Folder.mkdir]. *)
Definition mkdir (args : list string) (w : world) : outcome * world :=
  let full_path := OsPath.join (dir (self w)) args in
  match makedirs_exist_ok full_path (fs w) with
  | (false, d) => (Raise (OSError full_path), mkWorld (self w) d (stdout w))
  | (true, d) =>
      match OsPath.relpath getcwd full_path (dir (self w)) with
      | None =>
          (Raise (ValueError "no path specified"),
           mkWorld (self w) d (stdout w))
      | Some relative_path =>
          let path_parts := Str.split OsPath.sep relative_path in
          (Return VNone,
           mkWorld (mkdir_walk (self w) path_parts) d (stdout w))
      end
  end.

(** The methods as calls on a world; [__getattr__] and [dir] get the
    node and hand the world back as it was. *)
Inductive method : Type :=
| Getattr (item : string)
| Dir
| Remove (name_ : string)
| Mkdir (args : list string).

Definition call (m : method) (w : world) : outcome * world :=
  match m with
  | Getattr item => (getattr (self w) item, w)
  | Dir => (Return (VStr (dir (self w))), w)
  | Remove name_ => remove name_ w
  | Mkdir args => mkdir args w
  end.

End Methods.

(** ** The methods of [PathManager] *)

(** [PathManager._load_nested_directories], one entry of the [for] loop:
    a directory gets a fresh node, filled by the recursive call and stored
    under its sanitized name; a file is stored under its sanitized name
    with [entry.path]. *)
Fixpoint load_entry (current_path : string) (current_folder : Folder)
    (entry : DirEntry) : Folder :=
  match entry with
  | EDir folder_name children =>
      let clean_name := Str.replace " " "_" folder_name in
      let new_subfolder := mkFolder folder_name current_path ∅ ∅ in
      let entry_path := OsPath.join current_path [folder_name] in
      set_subfolders current_folder
        (<[clean_name :=
             fold_left (load_entry entry_path) children new_subfolder]>
           (subfolders current_folder))
  | EFile entry_name =>
      let file_name :=
        Str.replace " " "_" (Str.replace "." "_" entry_name) in
      set_files current_folder
        (<[file_name := OsPath.join current_path [entry_name]]>
           (files current_folder))
  | EOther _ => current_folder
  end.

(** [PathManager._load_nested_directories(current_path, current_folder)],
    where [listing] is what [os.scandir(current_path)] enumerates. *)
Definition load_nested_directories (current_path : string)
    (listing : list DirEntry) (current_folder : Folder) : Folder :=
  fold_left (load_entry current_path) listing current_folder.

(** [PathManager.__init__(root_dir)]. *)
Definition PathManager_init (root_dir : string) (listing : list DirEntry)
    : PathManager :=
  mkPathManager root_dir
    (load_nested_directories root_dir listing
       (mkFolder (OsPath.basename root_dir) (OsPath.dirname root_dir) ∅ ∅)).

(** [PathManager.reload]. *)
Definition reload (pm : PathManager) (listing : list DirEntry) : PathManager :=
  mkPathManager (root pm)
    (load_nested_directories (root pm) listing (node pm)).

(** ** A platform that records the calls it receives *)

Inductive fs_call : Type :=
| Rmtree (path : string)
| OsRemove (path : string)
| Makedirs (path : string).

#[export] Instance recording_platform : Platform := {|
  disk := list fs_call;
  getcwd := "/home/user";
  getcwd_isabs := eq_refl;
  rmtree p d := (true, d ++ [Rmtree p]);
  os_remove p d := (true, d ++ [OsRemove p]);
  makedirs_exist_ok p d :=
    if String.eqb p "" then (false, d) else (true, d ++ [Makedirs p]);
  makedirs_empty := fun _ => eq_refl |}.


(** ** A small tree to run the definitions on *)

Definition example_listing : list DirEntry :=
  [EDir "Sub One" [EFile "a.txt"]; EDir "docs" []; EFile "notes.txt"].

Definition example_pm : PathManager := PathManager_init "/tmp/r" example_listing.

Definition example_world : @world recording_platform :=
  mkWorld (node example_pm) [] [].

(** No key of the subfolder dictionary contains a space: what
    sanitization gives for every key that the loader or [mkdir] stores. *)
Definition space_free_keys (f : Folder) : Prop :=
  ∀ k, is_Some (subfolders f !! k) → Str.has_char " " k = false.

(** A name that can stand for one path component: not empty, no
    separator, neither [.] nor [..]. *)
Definition plain (s : string) : Prop :=
  s ≠ "" ∧ s ≠ "." ∧ s ≠ ".." ∧ Str.has_char OsPath.sep s = false.

(** What [normpath] keeps: non-empty names without separator. *)
Definition comp_ok (s : string) : Prop :=
  s ≠ "" ∧ Str.has_char OsPath.sep s = false.

(** The argument that [abspath] hands to [normpath]. *)
Definition anchored (cwd p : string) : string :=
  if OsPath.isabs p then p else OsPath.join cwd [p].

(** The child that the loop of [mkdir] descends into for [part]: the one
    already stored under the sanitized key, or a fresh node. *)
Definition child_for (f : Folder) (part : string) : Folder :=
  match subfolders f !! Str.replace " " "_" part with
  | Some existing => existing
  | None => mkFolder part (dir f) ∅ ∅
  end.

(** Along [parts], every child that already exists carries the name of
    its part and its parent's [dir()] as [parent_path]. *)
Fixpoint chain_linked (f : Folder) (parts : list string) : Prop :=
  match parts with
  | [] => True
  | part :: rest =>
      match subfolders f !! Str.replace " " "_" part with
      | None => True
      | Some child =>
          name child = part ∧ parent_path child = dir f
          ∧ chain_linked child rest
      end
  end.

(** [new] is [old] with nothing changed except, possibly, the subfolder
    stored under [k]. *)
Definition updated_under (k : string) (old new : Folder) : Prop :=
  name new = name old ∧ parent_path new = parent_path old
  ∧ files new = files old
  ∧ ∀ j, j ≠ k → subfolders new !! j = subfolders old !! j.

(** The node reached from [f] by following the keys [ks] through the
    subfolder dictionaries. *)
Fixpoint node_at (f : Folder) (ks : list string) : option Folder :=
  match ks with
  | [] => Some f
  | k :: rest =>
      match subfolders f !! k with
      | Some child => node_at child rest
      | None => None
      end
  end.

(** ** The mirror and the directory tree it is loaded from *)

(** [n] is a node of the tree below [f] ([f] itself included). *)
Definition reachable (f n : Folder) : Prop := ∃ ks, node_at f ks = Some n.

(** What the specification asks of one node: [dir()] is the join of
    parent path and name, every subfolder key is the sanitized name of
    the child stored under it, every file key is the sanitized name of
    the file that the stored path ends in. *)
Definition node_ok (n : Folder) : Prop :=
  dir n = OsPath.join (parent_path n) [name n]
  ∧ (∀ k child, subfolders n !! k = Some child →
                k = sanitize_folder (name child))
  ∧ (∀ k path, files n !! k = Some path →
               k = sanitize_file (OsPath.basename path)).

Definition mirror_inv (f : Folder) : Prop := ∀ n, reachable f n → node_ok n.

(** The names [os.scandir] can enumerate: not empty, without separator,
    and neither [.] nor [..]. *)
Definition valid_name (s : string) : bool :=
  negb (String.eqb s "") && negb (Str.has_char OsPath.sep s)
  && negb (String.eqb s ".") && negb (String.eqb s "..").

Definition entry_name_of (e : DirEntry) : string :=
  match e with
  | EDir n _ => n
  | EFile n => n
  | EOther n => n
  end.

Fixpoint valid_entry (e : DirEntry) : bool :=
  valid_name (entry_name_of e)
  && match e with
     | EDir _ children => forallb valid_entry children
     | _ => true
     end.

Definition valid_listing (listing : list DirEntry) : bool :=
  forallb valid_entry listing.

(** The keys under which a listing's directories and files are stored. *)
Definition dir_keys (listing : list DirEntry) : list string :=
  omap (λ e, match e with
             | EDir n _ => Some (sanitize_folder n)
             | _ => None
             end) listing.

Definition file_keys (listing : list DirEntry) : list string :=
  omap (λ e, match e with
             | EFile n => Some (sanitize_file n)
             | _ => None
             end) listing.

(** No two directories of one directory share a key, no two files of one
    directory share a key, anywhere in the tree. *)
Fixpoint collision_free_entry (e : DirEntry) : bool :=
  match e with
  | EDir _ children =>
      bool_decide (NoDup (dir_keys children))
      && bool_decide (NoDup (file_keys children))
      && forallb collision_free_entry children
  | _ => true
  end.

Definition collision_free (listing : list DirEntry) : bool :=
  bool_decide (NoDup (dir_keys listing))
  && bool_decide (NoDup (file_keys listing))
  && forallb collision_free_entry listing.

(** The paths of the directories of a tree, and its files as pairs of
    the path of the directory and the raw name. *)
Fixpoint entry_dirs (parent : string) (e : DirEntry) : list string :=
  match e with
  | EDir n children =>
      let path := OsPath.join parent [n] in
      path :: flat_map (entry_dirs path) children
  | _ => []
  end.

Definition dir_paths (root_dir : string) (listing : list DirEntry)
    : list string :=
  root_dir :: flat_map (entry_dirs root_dir) listing.

Fixpoint entry_files (parent : string) (e : DirEntry)
    : list (string * string) :=
  match e with
  | EDir n children => flat_map (entry_files (OsPath.join parent [n])) children
  | EFile n => [(parent, n)]
  | EOther _ => []
  end.

Definition file_paths (root_dir : string) (listing : list DirEntry)
    : list (string * string) :=
  flat_map (entry_files root_dir) listing.

(** [dir()] called on every node of the tree below [f]. *)
Fixpoint all_dirs (f : Folder) : list string :=
  dir f :: map_fold (λ _ child acc, all_dirs child ++ acc) [] (subfolders f).

(** The node that the loader stores for a directory entry. *)
Definition load_dir (current_path folder_name : string)
    (children : list DirEntry) : Folder :=
  load_nested_directories (OsPath.join current_path [folder_name]) children
    (mkFolder folder_name current_path ∅ ∅).

(** The assignments that one scan of a listing makes to the two
    dictionaries, in order. *)
Definition dir_assigns (current_path : string) (listing : list DirEntry)
    : list (string * Folder) :=
  omap (λ e, match e with
             | EDir n children =>
                 Some (sanitize_folder n, load_dir current_path n children)
             | _ => None
             end) listing.

Definition file_assigns (current_path : string) (listing : list DirEntry)
    : list (string * string) :=
  omap (λ e, match e with
             | EFile n => Some (sanitize_file n, OsPath.join current_path [n])
             | _ => None
             end) listing.

(** A method called on the node that the keys [ks] lead to from the
    node of the world: the source mutates that node in place, so the
    tree above it sees the change. *)
Fixpoint update_at (ks : list string) (n' : Folder) (f : Folder) : Folder :=
  match ks with
  | [] => n'
  | k :: rest =>
      match subfolders f !! k with
      | Some child =>
          set_subfolders f (<[k := update_at rest n' child]> (subfolders f))
      | None => f
      end
  end.

Definition call_at `{Platform} (ks : list string) (m : method) (w : world)
    : option (outcome * world) :=
  match node_at (self w) ks with
  | Some n =>
      let r := call m (mkWorld n (fs w) (stdout w)) in
      Some (fst r,
            mkWorld (update_at ks (self (snd r)) (self w))
              (fs (snd r)) (stdout (snd r)))
  | None => None
  end.

(** A run of dictionary assignments [m[k] = v], first to last. *)
Definition assign {V} (l : list (string * V)) (m : gmap string V)
    : gmap string V :=
  fold_left (λ acc kv, <[kv.1 := kv.2]> acc) l m.

(** The step of the fold in [all_dirs]. *)
Definition collect (_ : string) (child : Folder) (acc : list string)
    : list string :=
  all_dirs child ++ acc.

(** ** The search path *)

(** [list.insert(index, x)]: a negative index counts from the end, and an
    index beyond either end is clamped to that end. *)
Definition list_insert_py {A} (index : Z) (x : A) (l : list A) : list A :=
  let n := Z.of_nat (length l) in
  let where_ :=
    if (index <? 0)%Z then Z.max 0 (index + n) else Z.min index n in
  take (Z.to_nat where_) l ++ x :: drop (Z.to_nat where_) l.

(** [Folder.add_to_sys_path(method, index)], on [sys.path] as a list of
    strings: the new [sys.path] and the line printed.  The defaults of
    the source are [method='insert'] and [index=1]. *)
Definition add_to_sys_path (method_ : string) (index : Z) (self : Folder)
    (sys_path : list string) : list string * string :=
  if bool_decide (dir self ∈ sys_path) then
    (sys_path, dir self +:+ " is already in the system path.")
  else if String.eqb method_ "insert" then
    (list_insert_py index (dir self) sys_path,
     "Inserted " +:+ dir self +:+ " at index " +:+ pretty index
                 +:+ " in system path.")
  else if String.eqb method_ "append" then
    (sys_path ++ [dir self],
     "Appended " +:+ dir self +:+ " to system path.")
  else
    (sys_path,
     "Invalid method: " +:+ method_ +:+ ". Use 'insert' or 'append'.").

(** ** Invariants of the whole tree *)

(** [Q] holds of every node of the tree below [f]. *)
Definition everywhere (Q : Folder → Prop) (f : Folder) : Prop :=
  ∀ n, reachable f n → Q n.

(** Every child has the [dir()] of the node it hangs under as parent
    path. *)
Definition children_linked (n : Folder) : Prop :=
  ∀ k c, subfolders n !! k = Some c → parent_path c = dir n.

(** No subfolder key contains a space; no file key contains a space or
    a dot. *)
Definition keys_sanitized (n : Folder) : Prop :=
  (∀ k, is_Some (subfolders n !! k) → Str.has_char " " k = false)
  ∧ (∀ k, is_Some (files n !! k) →
          Str.has_char " " k = false ∧ Str.has_char "." k = false).

(** A listing without the entries that are neither directory nor file,
    at every depth. *)
Fixpoint prune_entry (e : DirEntry) : list DirEntry :=
  match e with
  | EDir n children => [EDir n (flat_map prune_entry children)]
  | EFile n => [EFile n]
  | EOther _ => []
  end.

Definition prune (listing : list DirEntry) : list DirEntry :=
  flat_map prune_entry listing.

(* ################################################################## *)
(** * Properties *)

(** ** Strings *)

Lemma startswith_str_app (p s : string) : Str.startswith_str p (p +:+ s) = true.
Proof.
  induction p as [|a p IH]; simpl; [by destruct s|].
  by rewrite Ascii.eqb_refl, IH.
Qed.

Lemma contains_unfold (sub s : string) :
  Str.contains sub s =
  Str.startswith_str sub s
  || match s with EmptyString => false | String _ r => Str.contains sub r end.
Proof. by destruct s. Qed.

Lemma contains_here (sub s : string) : Str.contains sub (sub +:+ s) = true.
Proof. by rewrite contains_unfold, startswith_str_app. Qed.

Lemma contains_app_r (sub a s : string) :
  Str.contains sub s = true → Str.contains sub (a +:+ s) = true.
Proof.
  intros Hs. induction a as [|c a IH]; [done|].
  change (String c a +:+ s) with (String c (a +:+ s)).
  rewrite contains_unfold, IH. apply orb_true_r.
Qed.

(** ** Attribute lookup *)

Section Lookup.
Context `{Platform}.

(** C1: the lookup tries, in this order, the name with underscores
    turned into spaces among the subfolders, the name itself among the
    subfolders, the name itself among the files, and raises
    [AttributeError] when all three are absent; the call leaves the
    world (node, disk and output) as it was. *)
Theorem getattr_resolution (w : world) (item : string) :
  let folder_name := Str.replace "_" " " item in
  (∀ sub, subfolders (self w) !! folder_name = Some sub →
          fst (call (Getattr item) w) = Return (VFolder sub))
  ∧ (∀ sub, subfolders (self w) !! folder_name = None →
            subfolders (self w) !! item = Some sub →
            fst (call (Getattr item) w) = Return (VFolder sub))
  ∧ (∀ path, subfolders (self w) !! folder_name = None →
             subfolders (self w) !! item = None →
             files (self w) !! item = Some path →
             fst (call (Getattr item) w) = Return (VStr path))
  ∧ (subfolders (self w) !! folder_name = None →
     subfolders (self w) !! item = None →
     files (self w) !! item = None →
     ∃ msg, fst (call (Getattr item) w) = Raise (AttributeError msg))
  ∧ snd (call (Getattr item) w) = w.
Proof.
  simpl. unfold getattr. repeat split.
  - intros sub ->. done.
  - intros sub -> ->. done.
  - intros path -> -> ->. done.
  - intros -> -> ->. eauto.
Qed.

(** C9, as the code has it: when the three lookups fail, the
    [AttributeError] message is the looked-up name and the folder's own
    [name] (not its [dir()] path), in this fixed sentence. *)
Theorem getattr_not_found_message (w : world) (item : string) :
  subfolders (self w) !! Str.replace "_" " " item = None →
  subfolders (self w) !! item = None →
  files (self w) !! item = None →
  let msg := "'" +:+ item +:+ "' not found in folder '"
                 +:+ name (self w) +:+ "'" in
  fst (call (Getattr item) w) = Raise (AttributeError msg)
  ∧ Str.contains item msg = true
  ∧ Str.contains (name (self w)) msg = true.
Proof.
  intros H1 H2 H3 msg. unfold call, getattr. cbn [fst].
  rewrite H1, H2, H3. split; [done|]. subst msg. split.
  - apply (contains_app_r _ "'"), contains_here.
  - apply (contains_app_r _ "'"), contains_app_r.
    apply (contains_app_r _ "' not found in folder '"), contains_here.
Qed.

End Lookup.

Lemma getattr_resolution_witness :
  fst (call (Getattr "docs") example_world)
    = Return (VFolder (mkFolder "docs" "/tmp/r" ∅ ∅))
  ∧ fst (call (Getattr "Sub_One") example_world)
    = Return (VFolder (mkFolder "Sub One" "/tmp/r" ∅
                         {[ "a_txt" := "/tmp/r/Sub One/a.txt" ]}))
  ∧ fst (call (Getattr "notes_txt") example_world)
    = Return (VStr "/tmp/r/notes.txt")
  ∧ (∃ msg, fst (call (Getattr "missing") example_world)
            = Raise (AttributeError msg)).
Proof.
  split; [|split; [|split]].
  - apply (proj1 (getattr_resolution example_world "docs")).
    vm_compute. reflexivity.
  - apply (proj1 (proj2 (getattr_resolution example_world "Sub_One")));
      vm_compute; reflexivity.
  - apply (proj1 (proj2 (proj2 (getattr_resolution example_world "notes_txt"))));
      vm_compute; reflexivity.
  - apply (proj1 (proj2 (proj2 (proj2
             (getattr_resolution example_world "missing")))));
      vm_compute; reflexivity.
Defined.

Lemma getattr_not_found_message_witness :
  fst (call (Getattr "missing") example_world)
    = Raise (AttributeError "'missing' not found in folder 'r'")
  ∧ Str.contains "missing" "'missing' not found in folder 'r'" = true
  ∧ Str.contains "r" "'missing' not found in folder 'r'" = true.
Proof.
  apply (getattr_not_found_message example_world "missing");
    vm_compute; reflexivity.
Defined.

(** C9 as stated fails: the message of the error raised by a folder named
    [root] under [/home/user] does not contain its path
    [/home/user/root]. *)
Lemma getattr_message_omits_dir :
  ¬ (∀ (self : Folder) (item msg : string),
       getattr self item = Raise (AttributeError msg) →
       Str.contains item msg = true ∧ Str.contains (dir self) msg = true).
Proof.
  intros Hall.
  destruct (Hall (mkFolder "root" "/home/user" ∅ ∅) "x"
              "'x' not found in folder 'root'") as [_ Hdir].
  - vm_compute. reflexivity.
  - vm_compute in Hdir. discriminate.
Qed.

(** ** Remove *)

Lemma replace_underscore_cases (s : string) :
  Str.replace "_" " " s = s ∨ Str.has_char " " (Str.replace "_" " " s) = true.
Proof.
  induction s as [|c s [IH|IH]]; simpl; [by left| |].
  - destruct (Ascii.eqb_spec c "_") as [->|Hc]; [by right|].
    left. by rewrite IH.
  - right. rewrite IH. apply orb_true_r.
Qed.

Lemma lookup_restored_none (f : Folder) (m : gmap string Folder) (k : string) :
  space_free_keys f →
  (∀ j, is_Some (m !! j) → is_Some (subfolders f !! j)) →
  m !! k = None →
  m !! Str.replace "_" " " k = None.
Proof.
  intros Hkeys Hsub Hk.
  destruct (replace_underscore_cases k) as [->|Hsp]; [done|].
  destruct (m !! Str.replace "_" " " k) eqn:E; [|done].
  assert (is_Some (subfolders f !! Str.replace "_" " " k)) as Hs
    by (apply Hsub; eauto).
  apply Hkeys in Hs. congruence.
Qed.

Section Remove.
Context `{Platform}.

(** C8: when the name with spaces turned into underscores is a key of
    neither dictionary, [remove] returns normally, prints the
    not-found line, calls no primitive on the disk and leaves the node
    as it was. *)
Theorem remove_absent_reports (w : world) (target : string) :
  subfolders (self w) !! Str.replace " " "_" target = None →
  files (self w) !! Str.replace " " "_" target = None →
  call (Remove target) w =
    (Return VNone,
     mkWorld (self w) (fs w)
       (stdout w ++ ["'" +:+ Str.replace "_" " " target
                         +:+ "' not found in '" +:+ dir (self w) +:+ "'"])).
Proof. intros Hs Hf. unfold call, remove. by rewrite Hs, Hf. Qed.

(** C4, as the code has it.  Subfolder case: the recursive delete
    primitive is called on [join(self.dir(), child.name)]; only when it
    succeeds is the key deleted from [subfolders] and the success line
    printed, with the target's underscores turned into spaces.  File
    case: the single-file delete primitive is called on the stored path,
    then the key is deleted from [files].  Afterwards the lookup of the
    removed key raises [AttributeError] provided the key is not also a
    key of the other dictionary and no subfolder key contains a
    space. *)
Theorem remove_destructive (w : world) (target : string) :
  let with_spaces := Str.replace "_" " " target in
  let with_underscores := Str.replace " " "_" target in
  (∀ sub, subfolders (self w) !! with_underscores = Some sub →
     let full_path := OsPath.join (dir (self w)) [name sub] in
     (∀ d, rmtree full_path (fs w) = (false, d) →
           call (Remove target) w =
             (Raise (OSError full_path), mkWorld (self w) d (stdout w)))
     ∧ (∀ d, rmtree full_path (fs w) = (true, d) →
          let self' :=
            set_subfolders (self w)
              (delete with_underscores (subfolders (self w))) in
          call (Remove target) w =
            (Return VNone,
             mkWorld self' d
               (stdout w ++ ["Subfolder '" +:+ with_spaces
                             +:+ "' has been removed from '"
                             +:+ dir (self w) +:+ "'"]))
          ∧ subfolders self' !! with_underscores = None
          ∧ (files (self w) !! with_underscores = None →
             space_free_keys (self w) →
             ∃ msg, getattr self' with_underscores
                    = Raise (AttributeError msg))))
  ∧ (∀ full_path, subfolders (self w) !! with_underscores = None →
     files (self w) !! with_underscores = Some full_path →
     (∀ d, os_remove full_path (fs w) = (false, d) →
           call (Remove target) w =
             (Raise (OSError full_path), mkWorld (self w) d (stdout w)))
     ∧ (∀ d, os_remove full_path (fs w) = (true, d) →
          let self' :=
            set_files (self w)
              (delete with_underscores (files (self w))) in
          call (Remove target) w =
            (Return VNone,
             mkWorld self' d
               (stdout w ++ ["File '" +:+ with_spaces
                             +:+ "' has been removed from '"
                             +:+ dir (self w) +:+ "'"]))
          ∧ files self' !! with_underscores = None
          ∧ (space_free_keys (self w) →
             ∃ msg, getattr self' with_underscores
                    = Raise (AttributeError msg)))).
Proof.
  intros with_spaces with_underscores. split.
  - intros sub Hsub full_path. split.
    + intros d Hd. unfold call, remove.
      fold with_underscores. rewrite Hsub. fold full_path. by rewrite Hd.
    + intros d Hd self'. split; [|split].
      * unfold call, remove. fold with_underscores. rewrite Hsub.
        fold full_path. by rewrite Hd.
      * apply lookup_delete_eq.
      * intros Hfile Hkeys. unfold getattr.
        assert (subfolders self' !! with_underscores = None) as Hgone
          by apply lookup_delete_eq.
        rewrite (lookup_restored_none (self w) (subfolders self')
                   with_underscores Hkeys), Hgone; [|  |done].
        -- cbn [self' set_subfolders files]. rewrite Hfile. eauto.
        -- intros j [x Hj]. cbn [self' set_subfolders subfolders] in Hj.
           apply lookup_delete_Some in Hj as [_ Hj]. eauto.
  - intros full_path Hsub Hfile. split.
    + intros d Hd. unfold call, remove.
      fold with_underscores. by rewrite Hsub, Hfile, Hd.
    + intros d Hd self'. split; [|split].
      * unfold call, remove. fold with_underscores.
        by rewrite Hsub, Hfile, Hd.
      * apply lookup_delete_eq.
      * intros Hkeys. unfold getattr.
        cbn [self' set_files subfolders files].
        rewrite (lookup_restored_none (self w) (subfolders (self w))
                   with_underscores Hkeys), Hsub; [| done | done].
        rewrite lookup_delete_eq. eauto.
Qed.

End Remove.

Lemma example_space_free : space_free_keys (node example_pm).
Proof.
  intros k Hk. apply elem_of_dom in Hk.
  replace (dom (subfolders (node example_pm)))
    with ({[ "Sub_One"; "docs" ]} : gset string) in Hk
    by (vm_compute; reflexivity).
  apply elem_of_union in Hk as [Hk|Hk]; apply elem_of_singleton in Hk;
    subst k; reflexivity.
Qed.

Lemma remove_absent_reports_witness :
  call (Remove "no such") example_world =
    (Return VNone,
     mkWorld (node example_pm) [] ["'no such' not found in '/tmp/r'"]).
Proof.
  apply (remove_absent_reports example_world "no such");
    vm_compute; reflexivity.
Defined.

Lemma remove_destructive_witness :
  (call (Remove "Sub One") example_world =
     (Return VNone,
      mkWorld (set_subfolders (node example_pm)
                 (delete "Sub_One" (subfolders (node example_pm))))
        [Rmtree "/tmp/r/Sub One"]
        ["Subfolder 'Sub One' has been removed from '/tmp/r'"])
   ∧ ∃ msg, getattr (set_subfolders (node example_pm)
                       (delete "Sub_One" (subfolders (node example_pm))))
              "Sub_One" = Raise (AttributeError msg))
  ∧ (call (Remove "notes_txt") example_world =
       (Return VNone,
        mkWorld (set_files (node example_pm)
                   (delete "notes_txt" (files (node example_pm))))
          [OsRemove "/tmp/r/notes.txt"]
          ["File 'notes txt' has been removed from '/tmp/r'"])
     ∧ ∃ msg, getattr (set_files (node example_pm)
                         (delete "notes_txt" (files (node example_pm))))
                "notes_txt" = Raise (AttributeError msg)).
Proof.
  split.
  - destruct (remove_destructive example_world "Sub One") as [Hsub _].
    destruct (Hsub (mkFolder "Sub One" "/tmp/r" ∅
                      {[ "a_txt" := "/tmp/r/Sub One/a.txt" ]})) as [_ Hok];
      [vm_compute; reflexivity|].
    destruct (Hok [Rmtree "/tmp/r/Sub One"]) as (Hcall & _ & Hlookup);
      [vm_compute; reflexivity|].
    split; [exact Hcall|].
    apply Hlookup; [vm_compute; reflexivity | exact example_space_free].
  - destruct (remove_destructive example_world "notes_txt") as [_ Hfile].
    destruct (Hfile "/tmp/r/notes.txt") as [_ Hok];
      [vm_compute; reflexivity | vm_compute; reflexivity |].
    destruct (Hok [OsRemove "/tmp/r/notes.txt"]) as (Hcall & _ & Hlookup);
      [vm_compute; reflexivity|].
    split; [exact Hcall|].
    apply Hlookup. exact example_space_free.
Defined.

(** C4 as stated fails in its last clause: with a directory [my data] and
    a file [my.data] side by side, both under the key [my_data], removing
    the subfolder leaves a lookup of [my_data] that answers with the
    file's path. *)
Lemma remove_then_lookup_finds_file :
  ¬ (∀ (w : @world recording_platform) (target : string) (w' : world),
       is_Some (subfolders (self w) !! Str.replace " " "_" target) →
       call (Remove target) w = (Return VNone, w') →
       ∃ msg, getattr (self w') (Str.replace " " "_" target)
              = Raise (AttributeError msg)).
Proof.
  intros Hall.
  pose (pm := PathManager_init "/tmp/r" [EDir "my data" []; EFile "my.data"]).
  destruct (Hall (@mkWorld recording_platform (node pm) [] []) "my_data"
              (@mkWorld recording_platform (set_subfolders (node pm) ∅)
                 [Rmtree "/tmp/r/my data"]
                 ["Subfolder 'my data' has been removed from '/tmp/r'"]))
    as [msg Hmsg].
  - vm_compute. eauto.
  - vm_compute. reflexivity.
  - vm_compute in Hmsg. discriminate.
Qed.

(** ** Path arithmetic *)

Lemma append_nil_l (s : string) : "" +:+ s = s.
Proof. reflexivity. Qed.

Lemma append_cons (c : ascii) (x y : string) :
  String c x +:+ y = String c (x +:+ y).
Proof. reflexivity. Qed.

Lemma append_nil_r (x : string) : x +:+ "" = x.
Proof. induction x as [|c x IH]; [done|]. by rewrite append_cons, IH. Qed.

Lemma append_assoc (x y z : string) : (x +:+ y) +:+ z = x +:+ (y +:+ z).
Proof. induction x as [|c x IH]; [done|]. by rewrite !append_cons, IH. Qed.

Lemma append_eq_nil (x y : string) : x +:+ y = "" → x = "" ∧ y = "".
Proof. destruct x; [by rewrite append_nil_l | by rewrite append_cons]. Qed.

Ltac app_norm := rewrite ?append_cons, ?append_nil_l.

Section Paths.
Import OsPath.

Lemma split_nonempty (s : string) : ∃ h t, Str.split sep s = h :: t.
Proof.
  induction s as [|c s (h & t & IH)]; simpl; [eauto|].
  destruct (Ascii.eqb c sep); [eauto|]. rewrite IH. eauto.
Qed.

Lemma split_sep_free (s : string) :
  Str.has_char sep s = false → Str.split sep s = [s].
Proof.
  induction s as [|c s IH]; simpl; [done|].
  intros [Hc Hs]%orb_false_elim. rewrite Hc, (IH Hs). done.
Qed.

Lemma split_app_sep (x y : string) :
  Str.split sep (x +:+ String sep y) = Str.split sep x ++ Str.split sep y.
Proof.
  induction x as [|c x IH]; app_norm; simpl; [done|].
  destruct (Ascii.eqb c sep); [by rewrite IH|].
  rewrite IH. by destruct (split_nonempty x) as (h & t & ->).
Qed.

Lemma split_elements_sep_free (s : string) :
  Forall (λ x, Str.has_char sep x = false) (Str.split sep s).
Proof.
  induction s as [|c s IH]; simpl; [by repeat constructor|].
  destruct (Ascii.eqb c sep) eqn:Hc; [by constructor|].
  destruct (Str.split sep s) as [|h t].
  - repeat constructor. simpl. by rewrite Hc.
  - inversion_clear IH as [|?? Hh Ht]. constructor; [|done].
    simpl. by rewrite Hc, Hh.
Qed.

Lemma endswith_sep_inv (x : string) :
  Str.endswith sep x = true → ∃ x0, x = x0 +:+ String sep "".
Proof.
  induction x as [|c x IH]; simpl; [done|].
  destruct x as [|c' x'].
  - intros ->%Ascii.eqb_eq. by exists "".
  - intros (x0 & ->)%IH. by exists (String c x0).
Qed.

Lemma endswith_app_nonempty (x y : string) :
  y ≠ "" → Str.endswith sep (x +:+ y) = Str.endswith sep y.
Proof.
  intros Hy. induction x as [|c x IH]; app_norm; [done|]. simpl.
  destruct (x +:+ y) eqn:E; [|done].
  by apply append_eq_nil in E as [_ ?].
Qed.

Lemma endswith_sep_free (s : string) :
  Str.has_char sep s = false → Str.endswith sep s = false.
Proof.
  induction s as [|c s IH]; [done|]. simpl.
  intros [Hc Hs]%orb_false_elim. destruct s; [done|]. by apply IH.
Qed.

Lemma endswith_app_plain (x s : string) :
  s ≠ "" → Str.has_char sep s = false → Str.endswith sep (x +:+ s) = false.
Proof.
  intros Hne Hs. rewrite endswith_app_nonempty by done.
  by apply endswith_sep_free.
Qed.

Lemma startswith_app (x y : string) :
  x ≠ "" → Str.startswith sep (x +:+ y) = Str.startswith sep x.
Proof. by destruct x. Qed.

Lemma plain_not_abs (s : string) : plain s → Str.startswith sep s = false.
Proof.
  intros (Hne & _ & _ & Hs). destruct s; [done|].
  simpl in *. by apply orb_false_elim in Hs as [-> _].
Qed.

(** [join2] with a plain second argument. *)
Lemma join2_plain (x s : string) :
  plain s →
  join2 x s =
    if String.eqb x "" then s
    else if Str.endswith sep x then x +:+ s else x +:+ String sep s.
Proof.
  intros Hs. unfold join2. rewrite (plain_not_abs s Hs). simpl.
  by destruct (String.eqb x "").
Qed.

Lemma join2_plain_shape (x s : string) :
  plain s → join2 x s ≠ "" ∧ Str.endswith sep (join2 x s) = false.
Proof.
  intros Hs. pose proof Hs as (Hne & _ & _ & Hfree).
  rewrite (join2_plain x s Hs).
  destruct (String.eqb_spec x "") as [->|Hx].
  - split; [done|]. by apply endswith_sep_free.
  - destruct (Str.endswith sep x).
    + split; [by intros [? _]%append_eq_nil|]. by apply endswith_app_plain.
    + split; [by intros [? _]%append_eq_nil|].
      rewrite endswith_app_nonempty by done.
      by apply (endswith_app_plain (String sep "")).
Qed.

(** Splitting a joined chain of plain names gives the names back. *)
Lemma split_join_plain (x : string) (rest : list string) :
  x ≠ "" → Str.endswith sep x = false → Forall plain rest →
  Str.split sep (join x rest) = Str.split sep x ++ rest.
Proof.
  intros Hx Hend Hrest. revert x Hx Hend.
  induction Hrest as [|s rest Hs _ IH]; intros x Hx Hend.
  - by rewrite app_nil_r.
  - destruct (join2_plain_shape x s Hs) as [Hne Hend'].
    change (join x (s :: rest)) with (join (join2 x s) rest).
    rewrite (IH _ Hne Hend').
    rewrite (join2_plain x s Hs), Hend.
    destruct (String.eqb_spec x "") as [->|_]; [done|].
    rewrite split_app_sep, <- app_assoc. f_equal.
    destruct Hs as (_ & _ & _ & Hfree). by rewrite (split_sep_free s Hfree).
Qed.

End Paths.

(** ** Normalisation and relative paths *)

Section Normalisation.
Import OsPath.

Lemma plain_comp_ok (s : string) : plain s → comp_ok s.
Proof. by intros (? & _ & _ & ?). Qed.

Lemma norm_step_plain (i : nat) (acc : list string) (s : string) :
  plain s → norm_step i acc s = acc ++ [s].
Proof.
  intros (H1 & H2 & H3 & _). unfold norm_step.
  apply String.eqb_neq in H1, H2, H3. by rewrite H1, H2, H3.
Qed.

Lemma norm_step_empty (i : nat) (acc : list string) : norm_step i acc "" = acc.
Proof. done. Qed.

Lemma norm_step_rooted (n : nat) (acc : list string) (c : string) :
  norm_step (S n) acc c = norm_step 1 acc c.
Proof. done. Qed.

Lemma norm_comps_rooted (n : nat) (l : list string) :
  norm_comps (S n) l = norm_comps 1 l.
Proof.
  unfold norm_comps. generalize (@nil string) as acc.
  induction l as [|c l IH]; intros acc; [done|]. simpl.
  by rewrite norm_step_rooted, IH.
Qed.

Lemma Forall_removelast {A} (P : A → Prop) (l : list A) :
  Forall P l → Forall P (removelast l).
Proof.
  induction 1 as [|x l Hx Hl IH]; [constructor|]. simpl.
  destruct l; [constructor|]. by constructor.
Qed.

Lemma norm_step_ok (i : nat) (acc : list string) (c : string) :
  Forall comp_ok acc → Str.has_char sep c = false →
  Forall comp_ok (norm_step i acc c).
Proof.
  intros Hacc Hc. unfold norm_step.
  destruct (String.eqb_spec c "") as [->|Hne]; [done|]. simpl.
  destruct (String.eqb c "."); [done|]. simpl.
  repeat case_match; try done.
  - apply Forall_app. split; [done|]. by repeat constructor.
  - by apply Forall_removelast.
Qed.

Lemma norm_comps_ok (i : nat) (l : list string) :
  Forall (λ x, Str.has_char sep x = false) l → Forall comp_ok (norm_comps i l).
Proof.
  unfold norm_comps. assert (Forall comp_ok []) as Hacc by constructor.
  revert Hacc. generalize (@nil string) as acc.
  induction l as [|c l IH]; intros acc Hacc Hl; [done|].
  inversion_clear Hl. simpl. apply IH; [|done]. by apply norm_step_ok.
Qed.

Lemma join_comps_not_abs (comps : list string) :
  Forall comp_ok comps → Str.startswith sep (Str.join sep comps) = false.
Proof.
  destruct 1 as [|x r [Hne Hfree] _]; [done|].
  assert (Str.startswith sep x = false) as Hx.
  { destruct x; [done|]. simpl in *. by apply orb_false_elim in Hfree as [-> _]. }
  simpl. destruct r; [done|]. by rewrite startswith_app.
Qed.

Lemma join_comps_nonempty (comps : list string) :
  Forall comp_ok comps → comps ≠ [] → Str.join sep comps ≠ "".
Proof.
  destruct 1 as [|x r [Hne Hfree] _]; [done|]. intros _. simpl.
  destruct r; [done|]. by intros [? _]%append_eq_nil.
Qed.

Lemma split_join_comps (comps : list string) :
  Forall comp_ok comps → comps ≠ [] →
  Str.split sep (Str.join sep comps) = comps.
Proof.
  induction 1 as [|x r [Hne Hfree] Hr IH]; [done|]. intros _.
  destruct r as [|y r]; [by apply split_sep_free|].
  change (Str.join sep (x :: y :: r))
    with (x +:+ String sep (Str.join sep (y :: r))).
  rewrite split_app_sep, IH, split_sep_free; done.
Qed.

Lemma lstrip_times (k : nat) (s : string) :
  Str.lstrip sep (Str.times sep k +:+ s) = Str.lstrip sep s.
Proof. induction k as [|k IH]; [done|]. simpl. by app_norm. Qed.

Lemma lstrip_not_abs (s : string) :
  Str.startswith sep s = false → Str.lstrip sep s = s.
Proof. destruct s; [done|]. simpl. by intros ->. Qed.

Lemma anchored_isabs (cwd p : string) :
  isabs cwd = true → isabs (anchored cwd p) = true.
Proof.
  intros Hcwd. unfold anchored. destruct (isabs p) eqn:Hp; [done|].
  change (join cwd [p]) with (join2 cwd p).
  unfold join2. unfold isabs in Hp. rewrite Hp.
  destruct cwd as [|c cwd]; [done|]. simpl orb. cbv iota.
  destruct (Str.endswith sep (String c cwd)); app_norm; exact Hcwd.
Qed.

Lemma initial_slashes_abs (p : string) :
  isabs p = true → ∃ n, initial_slashes p = S n.
Proof.
  unfold isabs, initial_slashes. intros ->. case_match; eauto.
Qed.

Lemma normpath_abs (p : string) :
  isabs p = true →
  ∃ n, normpath p =
       Str.times sep (S n) +:+ Str.join sep (norm_comps 1 (Str.split sep p)).
Proof.
  intros Habs. destruct (initial_slashes_abs p Habs) as [n Hn].
  exists n. unfold normpath. rewrite Hn, norm_comps_rooted.
  destruct p as [|c p]; [done|]. done.
Qed.

(** After [abspath], [lstrip] and [split], [relpath] holds exactly the
    normalised components. *)
Lemma tail_list_abs (cwd p : string) :
  isabs cwd = true →
  tail_list cwd p = norm_comps 1 (Str.split sep (anchored cwd p)).
Proof.
  intros Hcwd. unfold tail_list, abspath. fold (anchored cwd p).
  destruct (normpath_abs _ (anchored_isabs cwd p Hcwd)) as [n ->].
  assert (Forall comp_ok (norm_comps 1 (Str.split sep (anchored cwd p))))
    as Hok by apply norm_comps_ok, split_elements_sep_free.
  set (comps := norm_comps 1 (Str.split sep (anchored cwd p))) in *.
  cbv zeta.
  rewrite lstrip_times, lstrip_not_abs by by apply join_comps_not_abs.
  destruct comps as [|x r] eqn:E; [done|].
  destruct (String.eqb_spec (Str.join sep (x :: r)) "") as [Hnil|_].
  - by apply join_comps_nonempty in Hnil.
  - by apply split_join_comps.
Qed.

End Normalisation.

Section Relative.
Import OsPath.
Variable cwd : string.
Hypothesis cwd_abs : isabs cwd = true.

Lemma join2_rel (a b : string) :
  a ≠ "" → Str.startswith sep b = false →
  join2 a b = if Str.endswith sep a then a +:+ b else a +:+ String sep b.
Proof.
  intros Ha Hb. unfold join2. rewrite Hb.
  apply String.eqb_neq in Ha. by rewrite Ha.
Qed.

Lemma anchored_join2 (d s : string) :
  plain s → anchored cwd (join2 d s) = join2 (anchored cwd d) s.
Proof.
  intros Hs. pose proof (plain_not_abs s Hs) as Hrel.
  assert (cwd ≠ "") as Hcwd by (by destruct cwd).
  unfold anchored.
  change (join cwd [join2 d s]) with (join2 cwd (join2 d s)).
  change (join cwd [d]) with (join2 cwd d).
  destruct (String.eqb_spec d "") as [->|Hd].
  - (* an empty [d]: the joined path is [s] itself *)
    rewrite (join2_plain "" s Hs). simpl String.eqb. cbv iota.
    unfold isabs. rewrite Hrel. simpl Str.startswith. cbv iota.
    rewrite (join2_rel cwd s), (join2_rel cwd "") by done.
    destruct (Str.endswith sep cwd) eqn:Hend.
    + rewrite append_nil_r, join2_rel, Hend by done. done.
    + rewrite join2_rel; [|by intros [? _]%append_eq_nil|done].
      rewrite endswith_app_nonempty by done.
      change (Str.endswith sep (String sep "")) with true. cbv iota.
      by rewrite append_assoc.
  - assert (join2 d s = d +:+ (if Str.endswith sep d then s else String sep s))
      as Hds by (rewrite join2_rel by done; by destruct (Str.endswith sep d)).
    assert (isabs (join2 d s) = isabs d) as ->
      by (rewrite Hds; by apply startswith_app).
    destruct (isabs d) eqn:Hisabs; [done|].
    (* a relative [d]: both sides are [cwd], [d] and [s] in a row *)
    rewrite (join2_rel cwd d) by done.
    rewrite (join2_rel cwd (join2 d s))
      by (rewrite ?Hds, ?startswith_app; done).
    assert (∀ x, x ≠ "" → Str.endswith sep (x +:+ d) = Str.endswith sep d)
      as Hend by (intros; by apply endswith_app_nonempty).
    destruct (Str.endswith sep cwd).
    + rewrite (join2_rel (cwd +:+ d) s);
        [|by intros [? _]%append_eq_nil|done].
      rewrite Hend, Hds by done.
      destruct (Str.endswith sep d); by rewrite append_assoc.
    + rewrite (join2_rel (cwd +:+ String sep d) s);
        [|by intros [? _]%append_eq_nil|done].
      assert (Str.endswith sep (cwd +:+ String sep d) = Str.endswith sep d)
        as ->.
      { rewrite endswith_app_nonempty by done.
        exact (endswith_app_nonempty (String sep "") d Hd). }
      rewrite Hds.
      destruct (Str.endswith sep d);
        by rewrite !append_assoc, ?append_cons, ?append_nil_l.
Qed.

Lemma norm_comps_app (i : nat) (l1 l2 : list string) :
  norm_comps i (l1 ++ l2) = fold_left (norm_step i) l2 (norm_comps i l1).
Proof. apply fold_left_app. Qed.

Lemma norm_comps_join2 (a s : string) :
  a ≠ "" → plain s →
  norm_comps 1 (Str.split sep (join2 a s))
  = norm_comps 1 (Str.split sep a) ++ [s].
Proof.
  intros Ha Hs. pose proof Hs as (_ & _ & _ & Hfree).
  rewrite (join2_plain a s Hs).
  apply String.eqb_neq in Ha. rewrite Ha.
  destruct (Str.endswith sep a) eqn:Hend.
  - apply endswith_sep_inv in Hend as [a0 ->].
    rewrite append_assoc, append_cons, append_nil_l.
    rewrite !split_app_sep, !norm_comps_app, (split_sep_free s Hfree).
    simpl. by rewrite norm_step_empty, norm_step_plain.
  - rewrite split_app_sep, norm_comps_app, (split_sep_free s Hfree).
    simpl. by rewrite norm_step_plain.
Qed.

Lemma tail_list_join2 (d s : string) :
  plain s → tail_list cwd (join2 d s) = tail_list cwd d ++ [s].
Proof.
  intros Hs. rewrite !tail_list_abs by done.
  rewrite (anchored_join2 d s Hs). apply norm_comps_join2; [|done].
  pose proof (anchored_isabs cwd d cwd_abs). by destruct (anchored cwd d).
Qed.

Lemma tail_list_join (d : string) (segs : list string) :
  Forall plain segs → tail_list cwd (join d segs) = tail_list cwd d ++ segs.
Proof.
  intros Hsegs. revert d.
  induction Hsegs as [|s segs Hs _ IH]; intros d; [by rewrite app_nil_r|].
  change (join d (s :: segs)) with (join (join2 d s) segs).
  by rewrite IH, tail_list_join2, <- app_assoc.
Qed.

Lemma commonprefix_app (l r : list string) : commonprefix l (l ++ r) = l.
Proof.
  induction l as [|x l IH]; simpl; [by destruct r|].
  by rewrite String.eqb_refl, IH.
Qed.

Lemma join_plain_nonempty (d s : string) (rest : list string) :
  plain s → Forall plain rest → join d (s :: rest) ≠ "".
Proof.
  intros Hs Hrest. change (join d (s :: rest)) with (join (join2 d s) rest).
  destruct (join2_plain_shape d s Hs) as [Hne _]. revert Hne.
  generalize (join2 d s) as x.
  induction Hrest as [|y rest Hy _ IH]; intros x Hx; [done|].
  change (join x (y :: rest)) with (join (join2 x y) rest).
  apply IH. by destruct (join2_plain_shape x y Hy).
Qed.

(** The relative path of a chain of plain names joined onto [d],
    against [d], is the chain. *)
Lemma relpath_join_plain (d s : string) (rest : list string) :
  plain s → Forall plain rest →
  relpath cwd (join d (s :: rest)) d = Some (join s rest).
Proof.
  intros Hs Hrest. unfold relpath.
  pose proof (join_plain_nonempty d s rest Hs Hrest) as Hne.
  apply String.eqb_neq in Hne. rewrite Hne.
  rewrite tail_list_join by by constructor.
  cbv zeta. rewrite commonprefix_app, Nat.sub_diag, drop_app_length. done.
Qed.

(** The relative path of a directory against itself is [.]. *)
Lemma relpath_self (d : string) : d ≠ "" → relpath cwd d d = Some ".".
Proof.
  intros Hne. unfold relpath. apply String.eqb_neq in Hne. rewrite Hne.
  cbv zeta. generalize (tail_list cwd d) as l. intros l.
  pose proof (commonprefix_app l []) as Hl. rewrite app_nil_r in Hl.
  rewrite Hl, Nat.sub_diag, drop_all. done.
Qed.

Lemma split_chain (s : string) (rest : list string) :
  plain s → Forall plain rest → Str.split sep (join s rest) = s :: rest.
Proof.
  intros Hs Hrest. pose proof Hs as (Hne & _ & _ & Hfree).
  rewrite split_join_plain; [|done|by apply endswith_sep_free|done].
  by rewrite (split_sep_free s Hfree).
Qed.

End Relative.

(** ** Mkdir *)

Lemma mkdir_walk_cons (f : Folder) (part : string) (rest : list string) :
  mkdir_walk f (part :: rest) =
  set_subfolders f
    (<[Str.replace " " "_" part := mkdir_walk (child_for f part) rest]>
       (subfolders f)).
Proof. done. Qed.

Lemma mkdir_walk_frame (f : Folder) (parts : list string) :
  name (mkdir_walk f parts) = name f
  ∧ parent_path (mkdir_walk f parts) = parent_path f
  ∧ files (mkdir_walk f parts) = files f.
Proof. by destruct parts. Qed.

Lemma mkdir_walk_dir (f : Folder) (parts : list string) :
  dir (mkdir_walk f parts) = dir f.
Proof. by destruct parts. Qed.

Lemma mkdir_walk_lookup (f : Folder) (part : string) (rest : list string) :
  subfolders (mkdir_walk f (part :: rest)) !! Str.replace " " "_" part
  = Some (mkdir_walk (child_for f part) rest).
Proof. rewrite mkdir_walk_cons. apply lookup_insert_eq. Qed.

Lemma mkdir_walk_updated (f : Folder) (part : string) (rest : list string) :
  updated_under (Str.replace " " "_" part) f (mkdir_walk f (part :: rest)).
Proof.
  rewrite mkdir_walk_cons. repeat split.
  intros j Hj. by apply lookup_insert_ne.
Qed.

Lemma chain_linked_child (f : Folder) (part : string) (rest : list string) :
  chain_linked f (part :: rest) →
  name (child_for f part) = part
  ∧ parent_path (child_for f part) = dir f
  ∧ chain_linked (child_for f part) rest.
Proof.
  unfold child_for. simpl.
  destruct (subfolders f !! Str.replace " " "_" part); [done|].
  intros _. repeat split. by destruct rest.
Qed.

Lemma child_for_existing (f : Folder) (part : string) (old : Folder) :
  subfolders f !! Str.replace " " "_" part = Some old → child_for f part = old.
Proof. unfold child_for. by intros ->. Qed.

Section Mkdir.
Context `{Platform}.

(** For plain segments [mkdir] runs its loop over the segments
    themselves. *)
Lemma mkdir_plain (w : world) (s : string) (rest : list string) (d : disk) :
  plain s → Forall plain rest →
  makedirs_exist_ok (OsPath.join (dir (self w)) (s :: rest)) (fs w)
    = (true, d) →
  call (Mkdir (s :: rest)) w =
    (Return VNone, mkWorld (mkdir_walk (self w) (s :: rest)) d (stdout w)).
Proof.
  intros Hs Hrest Hd. unfold call, mkdir. rewrite Hd.
  rewrite (relpath_join_plain getcwd getcwd_isabs) by done.
  by rewrite split_chain.
Qed.

(** C10: called without segments on a node that has no [.] key, and
    whose own directory the create-chain primitive accepts, [mkdir]
    calls that primitive on the node's own directory only and stores a
    node named [.], with the node's [dir()] as parent path, under the
    key [.]. *)
Theorem mkdir_no_segments (w : world) (d : disk) :
  subfolders (self w) !! "." = None →
  makedirs_exist_ok (dir (self w)) (fs w) = (true, d) →
  call (Mkdir []) w =
    (Return VNone,
     mkWorld
       (set_subfolders (self w)
          (<["." := mkFolder "." (dir (self w)) ∅ ∅]> (subfolders (self w))))
       d (stdout w)).
Proof.
  intros Hdot Hd. unfold call, mkdir.
  change (OsPath.join (dir (self w)) []) with (dir (self w)).
  rewrite Hd.
  assert (dir (self w) ≠ "") as Hne.
  { intros E. rewrite E in Hd.
    pose proof (makedirs_empty (fs w)) as Hempty.
    rewrite Hd in Hempty. done. }
  rewrite (relpath_self getcwd) by done.
  change (Str.split OsPath.sep ".") with ["."].
  rewrite mkdir_walk_cons. unfold child_for.
  change (Str.replace " " "_" ".") with ".". by rewrite Hdot.
Qed.

(** C5, as the code has it: on a node whose already existing children
    along [a/b/c] (if any) carry their segment as name and their
    parent's [dir()] as parent path, [mkdir("a","b","c")] calls the
    create-chain primitive on [join(dir, a, b, c)], and afterwards the
    lookups of [a], [b], [c] lead to a node whose [dir()] is that path;
    every node on the way has its parent's [dir()] as parent path, and a
    child that existed before is kept, changed only under the key of the
    next segment. *)
Theorem mkdir_round_trip (w : world) (d : disk) :
  chain_linked (self w) ["a"; "b"; "c"] →
  makedirs_exist_ok (OsPath.join (dir (self w)) ["a"; "b"; "c"]) (fs w)
    = (true, d) →
  ∃ self' na nb nc,
    call (Mkdir ["a"; "b"; "c"]) w = (Return VNone, mkWorld self' d (stdout w))
    ∧ getattr self' "a" = Return (VFolder na)
    ∧ getattr na "b" = Return (VFolder nb)
    ∧ getattr nb "c" = Return (VFolder nc)
    ∧ dir nc = OsPath.join (dir (self w)) ["a"; "b"; "c"]
    ∧ (parent_path na = dir self' ∧ parent_path nb = dir na
       ∧ parent_path nc = dir nb)
    ∧ updated_under "a" (self w) self'
    ∧ (∀ oa, subfolders (self w) !! "a" = Some oa → updated_under "b" oa na)
    ∧ (∀ oa ob, subfolders (self w) !! "a" = Some oa →
                subfolders oa !! "b" = Some ob → updated_under "c" ob nb)
    ∧ (∀ oa ob oc, subfolders (self w) !! "a" = Some oa →
                   subfolders oa !! "b" = Some ob →
                   subfolders ob !! "c" = Some oc → nc = oc).
Proof.
  intros Hchain Hd.
  destruct (chain_linked_child _ _ _ Hchain) as (Hna & Hpa & Hchain_a).
  set (ca := child_for (self w) "a") in *.
  destruct (chain_linked_child _ _ _ Hchain_a) as (Hnb & Hpb & Hchain_b).
  set (cb := child_for ca "b") in *.
  destruct (chain_linked_child _ _ _ Hchain_b) as (Hnc & Hpc & _).
  set (cc := child_for cb "c") in *.
  exists (mkdir_walk (self w) ["a"; "b"; "c"]), (mkdir_walk ca ["b"; "c"]),
         (mkdir_walk cb ["c"]), cc.
  assert (∀ f part rest,
            Str.replace "_" " " part = part →
            Str.replace " " "_" part = part →
            getattr (mkdir_walk f (part :: rest)) part
            = Return (VFolder (mkdir_walk (child_for f part) rest)))
    as Hget.
  { intros f part rest E1 E2. unfold getattr. rewrite E1.
    pose proof (mkdir_walk_lookup f part rest) as Hl. rewrite E2 in Hl.
    by rewrite Hl. }
  split; [|split; [|split; [|split; [|split; [|split; [|split; [|split; [|split]]]]]]]].
  - apply mkdir_plain; [done| |done]. by repeat constructor.
  - by apply Hget.
  - by apply Hget.
  - by apply Hget.
  - unfold dir at 1. rewrite Hnc, Hpc.
    unfold dir at 1. rewrite Hnb, Hpb.
    unfold dir at 1. rewrite Hna, Hpa. done.
  - destruct (mkdir_walk_frame ca ["b"; "c"]) as (_ & -> & _).
    destruct (mkdir_walk_frame cb ["c"]) as (_ & -> & _).
    by rewrite !mkdir_walk_dir.
  - apply (mkdir_walk_updated (self w) "a").
  - intros oa Hoa. rewrite <- (child_for_existing (self w) "a" oa Hoa).
    apply (mkdir_walk_updated _ "b").
  - intros oa ob Hoa Hob.
    rewrite <- (child_for_existing ca "b" ob);
      [|unfold ca; by rewrite (child_for_existing (self w) "a" oa Hoa)].
    apply (mkdir_walk_updated _ "c").
  - intros oa ob oc Hoa Hob Hoc.
    apply (child_for_existing cb "c" oc).
    subst cb ca.
    by rewrite (child_for_existing (self w) "a" oa Hoa),
               (child_for_existing oa "b" ob Hob).
Qed.

End Mkdir.

Lemma mkdir_no_segments_witness :
  call (Mkdir []) example_world =
    (Return VNone,
     mkWorld
       (set_subfolders (node example_pm)
          (<["." := mkFolder "." "/tmp/r" ∅ ∅]> (subfolders (node example_pm))))
       [Makedirs "/tmp/r"] []).
Proof.
  apply (mkdir_no_segments example_world [Makedirs "/tmp/r"]);
    vm_compute; reflexivity.
Defined.

Lemma mkdir_round_trip_witness :
  ∃ self' na nb nc,
    call (Mkdir ["a"; "b"; "c"]) example_world
      = (Return VNone, mkWorld self' [Makedirs "/tmp/r/a/b/c"] [])
    ∧ getattr self' "a" = Return (VFolder na)
    ∧ getattr na "b" = Return (VFolder nb)
    ∧ getattr nb "c" = Return (VFolder nc)
    ∧ dir nc = "/tmp/r/a/b/c".
Proof.
  destruct (mkdir_round_trip example_world [Makedirs "/tmp/r/a/b/c"])
    as (self' & na & nb & nc & Hcall & Ha & Hb & Hc & Hdir & _).
  - vm_compute. exact I.
  - vm_compute. reflexivity.
  - exists self', na, nb, nc. repeat split; assumption.
Defined.

(** C5 as stated fails: a manager constructed on [/tmp//r], whose disk
    already holds the directory [a], keeps for [a] the parent path
    [/tmp//r] it was scanned under, so after [mkdir("a","b","c")] the
    node reached through [a], [b], [c] answers [/tmp//r/a/b/c], which is
    not [join(dir, a, b, c) = /tmp/r/a/b/c]. *)
Lemma mkdir_lookup_dir_differs :
  ¬ (∀ (w w' : @world recording_platform) (na nb nc : Folder),
       call (Mkdir ["a"; "b"; "c"]) w = (Return VNone, w') →
       getattr (self w') "a" = Return (VFolder na) →
       getattr na "b" = Return (VFolder nb) →
       getattr nb "c" = Return (VFolder nc) →
       dir nc = OsPath.join (dir (self w)) ["a"; "b"; "c"]).
Proof.
  intros Hall.
  pose (pm := PathManager_init "/tmp//r" [EDir "a" []]).
  pose (nc := mkFolder "c" "/tmp//r/a/b" ∅ ∅).
  pose (nb := mkFolder "b" "/tmp//r/a" {[ "c" := nc ]} ∅).
  pose (na := mkFolder "a" "/tmp//r" {[ "b" := nb ]} ∅).
  specialize (Hall (@mkWorld recording_platform (node pm) [] [])
                (@mkWorld recording_platform
                   (set_subfolders (node pm) {[ "a" := na ]})
                   [Makedirs "/tmp/r/a/b/c"] [])
                na nb nc).
  assert (dir nc = OsPath.join (dir (node pm)) ["a"; "b"; "c"]) as Hdir
    by (apply Hall; vm_compute; reflexivity).
  vm_compute in Hdir. discriminate.
Qed.

(** ** Loading *)

Section Assign.
Context {V : Type}.
Implicit Types (l : list (string * V)) (m : gmap string V).

Lemma assign_cons k v l m : assign ((k, v) :: l) m = assign l (<[k := v]> m).
Proof. done. Qed.

Lemma assign_snoc l k v m : assign (l ++ [(k, v)]) m = <[k := v]> (assign l m).
Proof. unfold assign. by rewrite fold_left_app. Qed.

Lemma assign_lookup_notin l m k : k ∉ l.*1 → assign l m !! k = m !! k.
Proof.
  revert m. induction l as [|[k' v'] l IH]; intros m Hk; [done|].
  rewrite fmap_cons in Hk. apply not_elem_of_cons in Hk as [Hne Hk].
  rewrite assign_cons, IH by done. by apply lookup_insert_ne.
Qed.

(** A key that the run assigns gets its value from the run alone. *)
Lemma assign_lookup_in l m m' k :
  k ∈ l.*1 → assign l m !! k = assign l m' !! k.
Proof.
  revert m m'. induction l as [|[k' v'] l IH]; intros m m' Hk.
  - by apply elem_of_nil in Hk.
  - rewrite !assign_cons. destruct (decide (k ∈ l.*1)) as [Hin|Hout].
    + by apply IH.
    + rewrite !assign_lookup_notin by done.
      rewrite fmap_cons in Hk. apply elem_of_cons in Hk as [->|Hk]; [|done].
      by rewrite !lookup_insert_eq.
Qed.

Lemma assign_lookup_in_Some l m k :
  k ∈ l.*1 → ∃ v, (k, v) ∈ l ∧ assign l m !! k = Some v.
Proof.
  revert m. induction l as [|[k' v'] l IH]; intros m Hk.
  - by apply elem_of_nil in Hk.
  - rewrite assign_cons. destruct (decide (k ∈ l.*1)) as [Hin|Hout].
    + destruct (IH (<[k' := v']> m) Hin) as (v & Hv & Hl).
      exists v. split; [by right|done].
    + rewrite assign_lookup_notin by done.
      rewrite fmap_cons in Hk. apply elem_of_cons in Hk as [->|Hk]; [|done].
      exists v'. split; [by left|]. by rewrite lookup_insert_eq.
Qed.

Lemma assign_lookup_nodup l m k v :
  NoDup l.*1 → (k, v) ∈ l → assign l m !! k = Some v.
Proof.
  revert m. induction l as [|[k' v'] l IH]; intros m Hnd Hin.
  - by apply elem_of_nil in Hin.
  - rewrite assign_cons. apply NoDup_cons in Hnd as [Hk' Hnd].
    apply elem_of_cons in Hin as [[= -> ->]|Hin].
    + rewrite assign_lookup_notin by done. by rewrite lookup_insert_eq.
    + by apply IH.
Qed.

Lemma assign_is_Some l m k : is_Some (m !! k) → is_Some (assign l m !! k).
Proof.
  intros Hk. destruct (decide (k ∈ l.*1)) as [Hin|Hout].
  - destruct (assign_lookup_in_Some l m k Hin) as (v & _ & ->). eauto.
  - by rewrite assign_lookup_notin.
Qed.

Lemma assign_idem l m : assign l (assign l m) = assign l m.
Proof.
  apply map_eq. intros k. destruct (decide (k ∈ l.*1)) as [Hin|Hout].
  - by apply assign_lookup_in.
  - by rewrite assign_lookup_notin.
Qed.

End Assign.

Lemma load_entry_frame (p : string) (f : Folder) (e : DirEntry) :
  name (load_entry p f e) = name f
  ∧ parent_path (load_entry p f e) = parent_path f.
Proof. by destruct e. Qed.

(** One scan of a listing is two runs of assignments, one on each
    dictionary; name and parent path stay. *)
Lemma load_nested_shape (p : string) (listing : list DirEntry) (f : Folder) :
  load_nested_directories p listing f =
  mkFolder (name f) (parent_path f)
    (assign (dir_assigns p listing) (subfolders f))
    (assign (file_assigns p listing) (files f)).
Proof.
  unfold load_nested_directories. revert f.
  induction listing as [|e listing IH]; intros f; [by destruct f|].
  simpl fold_left. rewrite IH. destruct e; unfold dir_assigns, file_assigns; simpl; reflexivity.
Qed.

Lemma load_nested_dir (p : string) (listing : list DirEntry) (f : Folder) :
  dir (load_nested_directories p listing f) = dir f.
Proof. by rewrite load_nested_shape. Qed.

Lemma dir_assigns_keys (p : string) (listing : list DirEntry) :
  (dir_assigns p listing).*1 = dir_keys listing.
Proof.
  induction listing as [|e listing IH]; [done|].
  destruct e; unfold dir_assigns, dir_keys in *; simpl;
    rewrite ?fmap_cons; simpl; by f_equal.
Qed.

Lemma file_assigns_keys (p : string) (listing : list DirEntry) :
  (file_assigns p listing).*1 = file_keys listing.
Proof.
  induction listing as [|e listing IH]; [done|].
  destruct e; unfold file_assigns, file_keys in *; simpl;
    rewrite ?fmap_cons; simpl; by f_equal.
Qed.

Lemma dir_assigns_elem (p : string) (listing : list DirEntry) k c :
  (k, c) ∈ dir_assigns p listing ↔
  ∃ n children, EDir n children ∈ listing
                ∧ k = sanitize_folder n ∧ c = load_dir p n children.
Proof.
  unfold dir_assigns. rewrite list_elem_of_omap. split.
  - intros ([n ch| |] & Hin & Heq); simplify_eq. eauto.
  - intros (n & ch & Hin & -> & ->). exists (EDir n ch). eauto.
Qed.

Lemma file_assigns_elem (p : string) (listing : list DirEntry) k path :
  (k, path) ∈ file_assigns p listing ↔
  ∃ n, EFile n ∈ listing ∧ k = sanitize_file n ∧ path = OsPath.join p [n].
Proof.
  unfold file_assigns. rewrite list_elem_of_omap. split.
  - intros ([|n|] & Hin & Heq); simplify_eq. eauto.
  - intros (n & Hin & -> & ->). exists (EFile n). eauto.
Qed.

Lemma dir_keys_elem (listing : list DirEntry) k :
  k ∈ dir_keys listing ↔
  ∃ n children, EDir n children ∈ listing ∧ k = sanitize_folder n.
Proof.
  unfold dir_keys. rewrite list_elem_of_omap. split.
  - intros ([n ch| |] & Hin & Heq); simplify_eq. eauto.
  - intros (n & ch & Hin & ->). exists (EDir n ch). eauto.
Qed.

Lemma file_keys_elem (listing : list DirEntry) k :
  k ∈ file_keys listing ↔ ∃ n, EFile n ∈ listing ∧ k = sanitize_file n.
Proof.
  unfold file_keys. rewrite list_elem_of_omap. split.
  - intros ([|n|] & Hin & Heq); simplify_eq. eauto.
  - intros (n & Hin & ->). exists (EFile n). eauto.
Qed.

(** ** Reload *)

(** A node that the scan creates holds only what the scan found. *)
Lemma load_dir_only_scanned (p n : string) (children : list DirEntry) :
  (∀ k, is_Some (subfolders (load_dir p n children) !! k) →
        k ∈ dir_keys children)
  ∧ (∀ k, is_Some (files (load_dir p n children) !! k) →
          k ∈ file_keys children).
Proof.
  unfold load_dir. rewrite load_nested_shape. simpl. split; intros k Hk.
  - destruct (decide (k ∈ dir_keys children)) as [|Hout]; [done|].
    rewrite assign_lookup_notin, lookup_empty in Hk
      by by rewrite dir_assigns_keys.
    by destruct Hk.
  - destruct (decide (k ∈ file_keys children)) as [|Hout]; [done|].
    rewrite assign_lookup_notin, lookup_empty in Hk
      by by rewrite file_assigns_keys.
    by destruct Hk.
Qed.

(** C6, as the code has it: [reload] scans into the root node without
    clearing its two dictionaries.  Every key of the root node stays; an
    entry of the root node whose key the rescan does not produce stays as
    it was (a subfolder with its whole subtree); a key that the rescan
    produces holds what the rescan found: for a directory a node created
    afresh by this scan, which holds only what the scan found below it. *)
Theorem reload_keeps_root_entries (pm : PathManager) (listing : list DirEntry) :
  let pm' := reload pm listing in
  root pm' = root pm
  ∧ (∀ k, is_Some (subfolders (node pm) !! k) →
          is_Some (subfolders (node pm') !! k))
  ∧ (∀ k, is_Some (files (node pm) !! k) → is_Some (files (node pm') !! k))
  ∧ (∀ k, k ∉ dir_keys listing →
          subfolders (node pm') !! k = subfolders (node pm) !! k)
  ∧ (∀ k, k ∉ file_keys listing →
          files (node pm') !! k = files (node pm) !! k)
  ∧ (∀ k, k ∈ dir_keys listing →
          ∃ n children,
            EDir n children ∈ listing ∧ k = sanitize_folder n
            ∧ subfolders (node pm') !! k = Some (load_dir (root pm) n children)
            ∧ (∀ j, is_Some (subfolders (load_dir (root pm) n children) !! j) →
                    j ∈ dir_keys children)
            ∧ (∀ j, is_Some (files (load_dir (root pm) n children) !! j) →
                    j ∈ file_keys children))
  ∧ (∀ k, k ∈ file_keys listing →
          ∃ n, EFile n ∈ listing ∧ k = sanitize_file n
               ∧ files (node pm') !! k = Some (OsPath.join (root pm) [n])).
Proof.
  intros pm'. subst pm'. unfold reload. cbn [root node].
  rewrite load_nested_shape. cbn [subfolders files].
  split; [done|]. split; [|split; [|split; [|split; [|split]]]].
  - intros k. apply assign_is_Some.
  - intros k. apply assign_is_Some.
  - intros k Hk. apply assign_lookup_notin. by rewrite dir_assigns_keys.
  - intros k Hk. apply assign_lookup_notin. by rewrite file_assigns_keys.
  - intros k Hk. rewrite <- (dir_assigns_keys (root pm)) in Hk.
    destruct (assign_lookup_in_Some _ (subfolders (node pm)) k Hk)
      as (c & Hc & Hlookup).
    apply dir_assigns_elem in Hc as (n & children & Hin & -> & ->).
    exists n, children. repeat split; try done;
      apply load_dir_only_scanned.
  - intros k Hk. rewrite <- (file_assigns_keys (root pm)) in Hk.
    destruct (assign_lookup_in_Some _ (files (node pm)) k Hk)
      as (path & Hpath & Hlookup).
    apply file_assigns_elem in Hpath as (n & Hin & -> & ->).
    by exists n.
Qed.

(** C6 as stated fails for entries below the root node: with a file
    [sub/a.txt] loaded and then deleted on disk, [reload] replaces the
    node of [sub] by a fresh one, and the stale entry [a_txt] is gone
    although the rescan produced no entry of that key. *)
Lemma reload_drops_nested_stale_entry :
  ¬ (∀ (pm : PathManager) (listing : list DirEntry) (ks : list string)
       (n : Folder) (k path : string),
       node_at (node pm) ks = Some n →
       files n !! k = Some path →
       (∀ q fname, (q, fname) ∈ file_paths (root pm) listing →
                   sanitize_file fname ≠ k) →
       ∃ n', node_at (node (reload pm listing)) ks = Some n'
             ∧ files n' !! k = Some path).
Proof.
  intros Hall.
  destruct (Hall (PathManager_init "/tmp/r" [EDir "sub" [EFile "a.txt"]])
              [EDir "sub" []] ["sub"]
              (mkFolder "sub" "/tmp/r" ∅ {[ "a_txt" := "/tmp/r/sub/a.txt" ]})
              "a_txt" "/tmp/r/sub/a.txt")
    as (n' & Hn' & Hfile).
  - vm_compute. reflexivity.
  - vm_compute. reflexivity.
  - intros q fname Hin. by apply elem_of_nil in Hin.
  - vm_compute in Hn'. injection Hn' as <-.
    vm_compute in Hfile. discriminate.
Qed.

Lemma reload_idem (pm : PathManager) (listing : list DirEntry) :
  reload (reload pm listing) listing = reload pm listing.
Proof.
  unfold reload. cbn [root node]. f_equal.
  rewrite !load_nested_shape. cbn [name parent_path subfolders files].
  by rewrite !assign_idem.
Qed.

(** C7: a second [reload] over the same listing leaves the mirror as the
    first one left it; in particular the same key paths lead to nodes, and
    the nodes they lead to have the same subfolder keys and the same file
    keys. *)
Theorem reload_idempotent (pm : PathManager) (listing : list DirEntry) :
  let pm1 := reload pm listing in
  let pm2 := reload pm1 listing in
  (∀ ks n1, node_at (node pm1) ks = Some n1 →
            ∃ n2, node_at (node pm2) ks = Some n2
                  ∧ dom (subfolders n2) = dom (subfolders n1)
                  ∧ dom (files n2) = dom (files n1))
  ∧ (∀ ks n2, node_at (node pm2) ks = Some n2 →
              ∃ n1, node_at (node pm1) ks = Some n1
                    ∧ dom (subfolders n2) = dom (subfolders n1)
                    ∧ dom (files n2) = dom (files n1))
  ∧ pm2 = pm1.
Proof.
  intros pm1 pm2. subst pm1 pm2. rewrite reload_idem.
  split; [|split; [|done]]; intros ks n Hn; by exists n.
Qed.

(** ** The mirror invariant *)

Lemma DirEntry_nested_ind (P : DirEntry → Prop) :
  (∀ n children, Forall P children → P (EDir n children)) →
  (∀ n, P (EFile n)) →
  (∀ n, P (EOther n)) →
  ∀ e, P e.
Proof.
  intros Hdir Hfile Hother. fix IH 1. intros [n children|n|n]; [|done..].
  apply Hdir. induction children as [|e children IHc]; constructor; auto.
Qed.

Section Basename.
Import OsPath.

Lemma rcut_sep_free (s : string) :
  Str.has_char sep s = false → rcut s = ("", s).
Proof.
  induction s as [|c s IH]; [done|]. simpl.
  intros [Hc Hs]%orb_false_elim. by rewrite (IH Hs), Hc.
Qed.

Lemma rcut_app_sep (x s : string) :
  Str.has_char sep s = false →
  rcut (x +:+ String sep s) = (x +:+ String sep "", s).
Proof.
  intros Hs. induction x as [|c x IH]; app_norm.
  - simpl. by rewrite (rcut_sep_free s Hs).
  - simpl. rewrite IH. by destruct x.
Qed.

(** The path stored for a scanned file ends in the file's name. *)
Lemma basename_join (p s : string) :
  Str.has_char sep s = false → basename (join p [s]) = s.
Proof.
  intros Hs. change (join p [s]) with (join2 p s). unfold join2, basename.
  assert (Str.startswith sep s = false) as ->.
  { destruct s; [done|]. simpl in *. by apply orb_false_elim in Hs as [-> _]. }
  simpl. destruct (String.eqb p ""); [by rewrite rcut_sep_free|].
  destruct (Str.endswith sep p) eqn:Hend.
  - apply endswith_sep_inv in Hend as [p0 ->].
    rewrite append_assoc, append_cons, append_nil_l.
    by rewrite rcut_app_sep.
  - by rewrite rcut_app_sep.
Qed.

End Basename.

Lemma valid_name_sep_free (s : string) :
  valid_name s = true → Str.has_char OsPath.sep s = false.
Proof.
  unfold valid_name. intros H.
  repeat (apply andb_prop in H as [H ?]).
  by apply negb_true_iff.
Qed.

Lemma valid_name_plain (s : string) : valid_name s = true ↔ plain s.
Proof.
  unfold valid_name, plain. rewrite !andb_true_iff, !negb_true_iff.
  rewrite !String.eqb_neq. tauto.
Qed.

Lemma reachable_child (f c n : Folder) (k : string) :
  subfolders f !! k = Some c → reachable c n → reachable f n.
Proof. intros Hk [ks Hks]. exists (k :: ks). simpl. by rewrite Hk. Qed.

Lemma mirror_inv_unfold (f : Folder) :
  mirror_inv f ↔
  node_ok f ∧ ∀ k c, subfolders f !! k = Some c → mirror_inv c.
Proof.
  split.
  - intros Hinv. split; [apply Hinv; by exists []|].
    intros k c Hk n Hn. apply Hinv. by apply (reachable_child f c n k).
  - intros [Hok Hchildren] n [ks Hks]. destruct ks as [|k ks]; simpl in Hks.
    + by simplify_eq.
    + destruct (subfolders f !! k) as [c|] eqn:Hk; [|done].
      apply (Hchildren k c Hk). by exists ks.
Qed.

Lemma mirror_inv_fresh (n p : string) : mirror_inv (mkFolder n p ∅ ∅).
Proof. apply mirror_inv_unfold. repeat split; intros ???; simplify_map_eq. Qed.

Lemma insert_child_inv (f c : Folder) (k : string) :
  mirror_inv f → mirror_inv c → k = sanitize_folder (name c) →
  mirror_inv (set_subfolders f (<[k := c]> (subfolders f))).
Proof.
  intros [(_ & Hsub & Hfiles) Hchildren]%mirror_inv_unfold Hc ->.
  apply mirror_inv_unfold. split; [split; [done|split; [|done]]|]; simpl.
  - intros k child [[<- <-]|[_ Hk]]%lookup_insert_Some; [done|]. by apply Hsub.
  - intros k child [[<- <-]|[_ Hk]]%lookup_insert_Some; [done|].
    by apply (Hchildren k).
Qed.

Lemma insert_file_inv (f : Folder) (k path : string) :
  mirror_inv f → k = sanitize_file (OsPath.basename path) →
  mirror_inv (set_files f (<[k := path]> (files f))).
Proof.
  intros [(_ & Hsub & Hfiles) Hchildren]%mirror_inv_unfold ->.
  apply mirror_inv_unfold. split; [split; [done|split; [done|]]|done]; simpl.
  intros k p [[<- <-]|[_ Hk]]%lookup_insert_Some; [done|]. by apply Hfiles.
Qed.

Lemma delete_child_inv (f : Folder) (k : string) :
  mirror_inv f → mirror_inv (set_subfolders f (delete k (subfolders f))).
Proof.
  intros [(_ & Hsub & Hfiles) Hchildren]%mirror_inv_unfold.
  apply mirror_inv_unfold. split; [split; [done|split; [|done]]|]; simpl.
  - intros j child [_ Hj]%lookup_delete_Some. by apply Hsub.
  - intros j child [_ Hj]%lookup_delete_Some. by apply (Hchildren j).
Qed.

Lemma delete_file_inv (f : Folder) (k : string) :
  mirror_inv f → mirror_inv (set_files f (delete k (files f))).
Proof.
  intros [(_ & Hsub & Hfiles) Hchildren]%mirror_inv_unfold.
  apply mirror_inv_unfold. split; [split; [done|split; [done|]]|done]; simpl.
  intros j p [_ Hj]%lookup_delete_Some. by apply Hfiles.
Qed.

Lemma load_fold_inv (p : string) (listing : list DirEntry) (f : Folder) :
  Forall (λ e, ∀ p f, valid_entry e = true → mirror_inv f →
                      mirror_inv (load_entry p f e)) listing →
  valid_listing listing = true → mirror_inv f →
  mirror_inv (load_nested_directories p listing f).
Proof.
  unfold load_nested_directories, valid_listing. intros Hall. revert f.
  induction Hall as [|e listing He _ IH]; intros f Hvalid Hf; [done|].
  simpl in Hvalid. apply andb_prop in Hvalid as [Hv Hvalid].
  simpl. apply IH; [done|]. by apply He.
Qed.

Lemma load_entry_dir (p : string) (f : Folder) (n : string)
    (children : list DirEntry) :
  load_entry p f (EDir n children) =
  set_subfolders f
    (<[sanitize_folder n := load_dir p n children]> (subfolders f)).
Proof. reflexivity. Qed.

Lemma load_entry_file (p : string) (f : Folder) (n : string) :
  load_entry p f (EFile n) =
  set_files f (<[sanitize_file n := OsPath.join p [n]]> (files f)).
Proof. reflexivity. Qed.

Lemma load_dir_frame (p n : string) (children : list DirEntry) :
  name (load_dir p n children) = n ∧ parent_path (load_dir p n children) = p.
Proof. unfold load_dir. by rewrite load_nested_shape. Qed.

Lemma load_entry_inv (e : DirEntry) (p : string) (f : Folder) :
  valid_entry e = true → mirror_inv f → mirror_inv (load_entry p f e).
Proof.
  revert p f. induction e as [n children IH|n|n] using DirEntry_nested_ind;
    intros p f Hvalid Hf; [| |done].
  - simpl in Hvalid. apply andb_prop in Hvalid as [_ Hchildren].
    rewrite load_entry_dir. apply insert_child_inv; [done| |].
    + apply (load_fold_inv _ children); [done|done|apply mirror_inv_fresh].
    + by destruct (load_dir_frame p n children) as [-> _].
  - simpl in Hvalid. rewrite andb_true_r in Hvalid.
    rewrite load_entry_file. apply insert_file_inv; [done|].
    by rewrite basename_join by by apply valid_name_sep_free.
Qed.

Lemma load_nested_inv (p : string) (listing : list DirEntry) (f : Folder) :
  valid_listing listing = true → mirror_inv f →
  mirror_inv (load_nested_directories p listing f).
Proof.
  apply load_fold_inv, Forall_forall. intros e _ p' f'. apply load_entry_inv.
Qed.

Lemma mkdir_walk_inv (parts : list string) (f : Folder) :
  mirror_inv f → mirror_inv (mkdir_walk f parts).
Proof.
  revert f. induction parts as [|part rest IH]; intros f Hf; [done|].
  rewrite mkdir_walk_cons.
  assert (mirror_inv (child_for f part)
          ∧ Str.replace " " "_" part = sanitize_folder (name (child_for f part)))
    as [Hchild Hkey].
  { unfold child_for.
    destruct (subfolders f !! Str.replace " " "_" part) as [c|] eqn:Hc.
    - apply mirror_inv_unfold in Hf as [(_ & Hsub & _) Hchildren].
      split; [by apply (Hchildren _ c Hc)|by apply Hsub].
    - split; [apply mirror_inv_fresh|done]. }
  apply insert_child_inv; [done|by apply IH|].
  by destruct (mkdir_walk_frame (child_for f part) rest) as (-> & _).
Qed.

Lemma update_at_inv (ks : list string) (f n n' : Folder) :
  node_at f ks = Some n → mirror_inv f → mirror_inv n' → name n' = name n →
  mirror_inv (update_at ks n' f) ∧ name (update_at ks n' f) = name f.
Proof.
  revert f. induction ks as [|k ks IH]; intros f Hat Hf Hn' Hname; simpl in *.
  - by simplify_eq.
  - destruct (subfolders f !! k) as [c|] eqn:Hk; [|done].
    pose proof Hf as [(_ & Hsub & _) Hchildren]%mirror_inv_unfold.
    destruct (IH c Hat (Hchildren k c Hk) Hn' Hname) as [Hinv Hnm].
    split; [|done]. apply insert_child_inv; [done|done|].
    rewrite Hnm. by apply Hsub.
Qed.

Section Preservation.
Context `{Platform}.

Lemma call_inv (m : method) (w : world) :
  mirror_inv (self w) →
  mirror_inv (self (snd (call m w)))
  ∧ name (self (snd (call m w))) = name (self w).
Proof.
  intros Hinv. destruct m as [item| |target|args]; simpl; [done|done| |].
  - unfold remove.
    destruct (subfolders (self w) !! _) as [sub|].
    { destruct (rmtree _ _) as [[] d]; simpl; [|done].
      split; [by apply delete_child_inv|done]. }
    destruct (files (self w) !! _) as [path|]; [|done].
    destruct (os_remove _ _) as [[] d]; simpl; [|done].
    split; [by apply delete_file_inv|done].
  - unfold mkdir. destruct (makedirs_exist_ok _ _) as [[] d]; [|done].
    destruct (OsPath.relpath _ _ _) as [rel|]; simpl; [|done].
    split; [by apply mkdir_walk_inv|].
    by destruct (mkdir_walk_frame (self w) (Str.split OsPath.sep rel)) as (-> & _).
Qed.

End Preservation.

(** C3: the invariant — for every node below the root, [dir()] is the
    join of parent path and name, every subfolder key is the sanitized
    name of the child under it, every file key is the sanitized name of
    the file its path ends in — holds after the initial load of a
    listing of valid names, and is kept by [reload] and by every method
    ([__getattr__], [dir], [remove], [mkdir]) called on any node of the
    tree. *)
Theorem mirror_invariant_preserved :
  (∀ root_dir listing,
     valid_listing listing = true →
     mirror_inv (node (PathManager_init root_dir listing)))
  ∧ (∀ pm listing,
       valid_listing listing = true → mirror_inv (node pm) →
       mirror_inv (node (reload pm listing)))
  ∧ (∀ (P : Platform) (ks : list string) (m : method) (w : world)
       (o : outcome) (w' : world),
       mirror_inv (self w) → call_at ks m w = Some (o, w') →
       mirror_inv (self w')).
Proof.
  split; [|split].
  - intros root_dir listing Hvalid. simpl.
    apply load_nested_inv; [done|apply mirror_inv_fresh].
  - intros pm listing Hvalid Hinv. simpl. by apply load_nested_inv.
  - intros P ks m w o w' Hinv Hcall. unfold call_at in Hcall.
    destruct (node_at (self w) ks) as [n|] eqn:Hat; [|done].
    injection Hcall as _ <-. cbn [self].
    assert (mirror_inv n) as Hn.
    { intros n' [ks' Hn']. apply Hinv. exists (ks ++ ks').
      clear -Hat Hn'. revert Hat. generalize (self w).
      induction ks as [|k ks IH]; intros f Hat; simpl in *; [by simplify_eq|].
      destruct (subfolders f !! k); [by apply IH|done]. }
    destruct (call_inv m (mkWorld n (fs w) (stdout w)) Hn) as [Hinv' Hname].
    by apply (update_at_inv ks (self w) n).
Qed.

Lemma mirror_invariant_preserved_witness :
  mirror_inv (node example_pm)
  ∧ mirror_inv (node (reload example_pm [EDir "docs" [EFile "b.md"]]))
  ∧ ∃ o w', call_at ["Sub_One"] (Mkdir ["x y"]) example_world = Some (o, w')
            ∧ mirror_inv (self w').
Proof.
  destruct mirror_invariant_preserved as (Hinit & Hreload & Hcall).
  assert (mirror_inv (node example_pm)) as Hex
    by (apply (Hinit "/tmp/r" example_listing); vm_compute; reflexivity).
  split; [exact Hex|]. split.
  - apply Hreload; [vm_compute; reflexivity | exact Hex].
  - destruct (call_at ["Sub_One"] (Mkdir ["x y"]) example_world)
      as [[o w']|] eqn:E; [|vm_compute in E; discriminate].
    exists o, w'. split; [reflexivity|].
    exact (Hcall recording_platform ["Sub_One"] (Mkdir ["x y"])
             example_world o w' Hex E).
Defined.

(** ** Load correctness *)

Lemma all_dirs_unfold (f : Folder) :
  all_dirs f = dir f :: map_fold collect [] (subfolders f).
Proof. by destruct f. Qed.

Lemma collect_insert (m : gmap string Folder) (k : string) (c : Folder) :
  m !! k = None →
  map_fold collect [] (<[k := c]> m) ≡ₚ all_dirs c ++ map_fold collect [] m.
Proof.
  intros Hk.
  change (all_dirs c ++ map_fold collect [] m)
    with (collect k c (map_fold collect [] m)).
  apply (map_fold_insert (≡ₚ)); [| |done].
  - intros j z l1 l2 Hl. unfold collect. by rewrite Hl.
  - intros j1 j2 z1 z2 y _ _ _. unfold collect.
    rewrite !app_assoc. f_equiv. apply Permutation_app_comm.
Qed.

Lemma collect_delete (m : gmap string Folder) (k : string) (c : Folder) :
  m !! k = Some c →
  map_fold collect [] m ≡ₚ all_dirs c ++ map_fold collect [] (delete k m).
Proof.
  intros Hk. rewrite <- (insert_delete_id m k c Hk) at 1.
  apply collect_insert, lookup_delete_eq.
Qed.

Lemma all_dirs_insert_child (f c : Folder) (k : string) :
  subfolders f !! k = None →
  all_dirs (set_subfolders f (<[k := c]> (subfolders f)))
  ≡ₚ all_dirs f ++ all_dirs c.
Proof.
  intros Hk.
  rewrite (all_dirs_unfold (set_subfolders _ _)), (all_dirs_unfold f).
  cbn [subfolders set_subfolders].
  change (dir (set_subfolders f (<[k:=c]> (subfolders f)))) with (dir f).
  rewrite collect_insert by done. simpl. f_equiv.
  apply Permutation_app_comm.
Qed.

Lemma elem_of_collect (m : gmap string Folder) (p : string) :
  p ∈ map_fold collect [] m ↔ ∃ k c, m !! k = Some c ∧ p ∈ all_dirs c.
Proof.
  induction m as [|k c m Hk IH] using map_ind.
  - rewrite map_fold_empty. split; [by intros ?%elem_of_nil|].
    intros (k & c & Hkc & _). by rewrite lookup_empty in Hkc.
  - rewrite collect_insert, elem_of_app, IH by done. split.
    + intros [Hp|(j & c' & Hj & Hp)].
      * exists k, c. by rewrite lookup_insert_eq.
      * exists j, c'. rewrite lookup_insert_ne; [done|]. congruence.
    + intros (j & c' & [[<- <-]|[Hne Hj]]%lookup_insert_Some & Hp); eauto.
Qed.

(** [all_dirs] lists [dir()] of the nodes of the tree, and of nothing
    else. *)
Lemma elem_of_all_dirs (f : Folder) (p : string) :
  p ∈ all_dirs f ↔ ∃ n, reachable f n ∧ dir n = p.
Proof.
  split.
  - remember (length (all_dirs f)) as size eqn:Hsize.
    revert f Hsize. induction size as [size IH] using lt_wf_ind.
    intros f -> Hp. rewrite all_dirs_unfold in Hp.
    apply elem_of_cons in Hp as [->|Hp]; [exists f; split; [by exists []|done]|].
    apply elem_of_collect in Hp as (k & c & Hk & Hp).
    destruct (IH (length (all_dirs c))) with (f := c) as (n & Hn & Hdir);
      [|done|done|].
    + rewrite (all_dirs_unfold f). simpl.
      rewrite (collect_delete _ k c Hk), length_app. lia.
    + exists n. split; [|done]. by apply (reachable_child f c n k).
  - intros (n & [ks Hks] & <-). revert f Hks.
    induction ks as [|k ks IH]; intros f Hks; simpl in Hks.
    + simplify_eq. rewrite all_dirs_unfold. by left.
    + destruct (subfolders f !! k) as [c|] eqn:Hk; [|done].
      rewrite all_dirs_unfold. right. apply elem_of_collect. eauto.
Qed.


Lemma collision_free_entry_dir (n : string) (children : list DirEntry) :
  collision_free_entry (EDir n children) = collision_free children.
Proof. done. Qed.

Lemma collision_free_elim (listing : list DirEntry) :
  collision_free listing = true →
  NoDup (dir_keys listing) ∧ NoDup (file_keys listing)
  ∧ Forall (λ e, collision_free_entry e = true) listing.
Proof.
  unfold collision_free. rewrite !andb_true_iff, !bool_decide_eq_true.
  intros [[? ?] Hall]. repeat split; try done.
  apply Forall_forall. intros e He. rewrite forallb_forall in Hall.
  apply Hall. by apply list_elem_of_In.
Qed.

Lemma load_entry_other (p : string) (f : Folder) (n : string) :
  load_entry p f (EOther n) = f.
Proof. done. Qed.

Lemma load_nested_cons (p : string) (e : DirEntry) (listing : list DirEntry)
    (f : Folder) :
  load_nested_directories p (e :: listing) f
  = load_nested_directories p listing (load_entry p f e).
Proof. done. Qed.

(** Scanning a listing whose directory keys are fresh and pairwise
    different adds, to the paths of the tree, the paths below each of
    its directories. *)
Lemma all_dirs_load_nested (p : string) (listing : list DirEntry) (f : Folder) :
  Forall (λ e, ∀ p, collision_free_entry e = true →
                    match e with
                    | EDir n children =>
                        all_dirs (load_dir p n children) ≡ₚ entry_dirs p e
                    | _ => True
                    end) listing →
  Forall (λ e, collision_free_entry e = true) listing →
  NoDup (dir_keys listing) →
  (∀ k, k ∈ dir_keys listing → subfolders f !! k = None) →
  all_dirs (load_nested_directories p listing f)
  ≡ₚ all_dirs f ++ flat_map (entry_dirs p) listing.
Proof.
  intros Hsub. revert f.
  induction Hsub as [|e listing He _ IH]; intros f Hfree Hnd Hfresh.
  - by rewrite app_nil_r.
  - apply Forall_cons in Hfree as [Hfree_e Hfree].
    rewrite load_nested_cons. destruct e as [n children|n|n].
    + cbn [dir_keys omap list_omap] in Hnd, Hfresh.
      apply NoDup_cons in Hnd as [Hn Hnd].
      rewrite IH; [|done|done|].
      * rewrite load_entry_dir, all_dirs_insert_child
          by (apply Hfresh; by left).
        rewrite (He p Hfree_e). cbn [flat_map]. by rewrite <- app_assoc.
      * intros k Hk. rewrite load_entry_dir. cbn [subfolders set_subfolders].
        rewrite lookup_insert_ne by (intros <-; done).
        apply Hfresh. by right.
    + rewrite IH by done. rewrite load_entry_file.
      by rewrite !all_dirs_unfold.
    + by rewrite IH.
Qed.

Lemma all_dirs_load_dir (e : DirEntry) (p : string) :
  collision_free_entry e = true →
  match e with
  | EDir n children => all_dirs (load_dir p n children) ≡ₚ entry_dirs p e
  | _ => True
  end.
Proof.
  revert p. induction e as [n children IH|n|n] using DirEntry_nested_ind;
    intros p Hfree; [|done..].
  rewrite collision_free_entry_dir in Hfree.
  apply collision_free_elim in Hfree as (Hnd & _ & Hall).
  unfold load_dir. rewrite all_dirs_load_nested; [done|done|done|done|].
  intros k _. apply lookup_empty.
Qed.

Lemma elem_of_flat_map {A B} (g : A → list B) (l : list A) (y : B) :
  y ∈ flat_map g l ↔ ∃ x, x ∈ l ∧ y ∈ g x.
Proof.
  rewrite list_elem_of_In, in_flat_map. split.
  - intros (x & Hx & Hy). exists x. by rewrite !list_elem_of_In.
  - intros (x & Hx & Hy). exists x. by rewrite <- !list_elem_of_In.
Qed.

(** Every file of a scanned listing is found under its sanitized name
    in the node of its directory. *)
Lemma files_load_nested (p : string) (listing : list DirEntry) (f : Folder)
    (q fname : string) :
  Forall (λ e, ∀ p q fname,
            collision_free_entry e = true → (q, fname) ∈ entry_files p e →
            match e with
            | EDir n children =>
                ∃ nd, reachable (load_dir p n children) nd ∧ dir nd = q
                      ∧ files nd !! sanitize_file fname
                        = Some (OsPath.join q [fname])
            | _ => True
            end) listing →
  Forall (λ e, collision_free_entry e = true) listing →
  NoDup (dir_keys listing) → NoDup (file_keys listing) →
  dir f = p →
  (q, fname) ∈ flat_map (entry_files p) listing →
  ∃ nd, reachable (load_nested_directories p listing f) nd ∧ dir nd = q
        ∧ files nd !! sanitize_file fname = Some (OsPath.join q [fname]).
Proof.
  intros Hsub Hfree Hnd_d Hnd_f Hdir (e & He & Hin)%elem_of_flat_map.
  rewrite Forall_forall in Hsub, Hfree.
  destruct e as [n children|n|n]; simpl in Hin.
  - destruct (Hsub _ He p q fname (Hfree _ He) Hin) as (nd & Hreach & Hq & Hfile).
    exists nd. split; [|done].
    apply (reachable_child _ (load_dir p n children) nd (sanitize_folder n));
      [|done].
    rewrite load_nested_shape. cbn [subfolders].
    apply assign_lookup_nodup; [by rewrite dir_assigns_keys|].
    apply dir_assigns_elem. eauto.
  - apply list_elem_of_singleton in Hin as [= -> ->].
    exists (load_nested_directories p listing f).
    split; [by exists []|]. split; [by rewrite load_nested_dir|].
    rewrite load_nested_shape. cbn [files].
    apply assign_lookup_nodup; [by rewrite file_assigns_keys|].
    apply file_assigns_elem. eauto.
  - by apply elem_of_nil in Hin.
Qed.

Lemma files_load_dir (e : DirEntry) (p q fname : string) :
  collision_free_entry e = true → (q, fname) ∈ entry_files p e →
  match e with
  | EDir n children =>
      ∃ nd, reachable (load_dir p n children) nd ∧ dir nd = q
            ∧ files nd !! sanitize_file fname = Some (OsPath.join q [fname])
  | _ => True
  end.
Proof.
  revert p q fname.
  induction e as [n children IH|n|n] using DirEntry_nested_ind;
    intros p q fname Hfree Hin; [|done..].
  rewrite collision_free_entry_dir in Hfree.
  apply collision_free_elim in Hfree as (Hnd_d & Hnd_f & Hall).
  unfold load_dir. by apply files_load_nested.
Qed.

Lemma entry_dirs_abs (e : DirEntry) (p : string) :
  valid_entry e = true → OsPath.isabs p = true →
  Forall (λ q, OsPath.isabs q = true) (entry_dirs p e).
Proof.
  revert p. induction e as [n children IH|n|n] using DirEntry_nested_ind;
    intros p Hvalid Hp; [|constructor..].
  simpl in Hvalid. apply andb_prop in Hvalid as [Hn Hchildren].
  assert (OsPath.isabs (OsPath.join p [n]) = true) as Habs.
  { change (OsPath.join p [n]) with (OsPath.join2 p n).
    rewrite join2_plain by by apply valid_name_plain.
    destruct p as [|c p]; [done|]. simpl String.eqb. cbv iota.
    destruct (Str.endswith OsPath.sep (String c p)); exact Hp. }
  simpl. constructor; [done|].
  apply Forall_forall. intros q (e & He & Hq)%elem_of_flat_map.
  rewrite Forall_forall in IH. rewrite forallb_forall in Hchildren.
  assert (valid_entry e = true) as Hv
    by (apply Hchildren; by apply list_elem_of_In).
  pose proof (IH e He (OsPath.join p [n]) Hv Habs) as Hall.
  rewrite Forall_forall in Hall. by apply Hall.
Qed.

(** C2, as the code has it: for a tree in which no two sibling
    directories and no two sibling files share a sanitized key, loaded
    from a root string that [dirname] and [basename] take apart and
    [join] puts back together, [dir()] over the nodes of the mirror gives
    the directory paths of the tree, each once; every file of the tree is
    in the [files] dictionary of the node of its directory, under its
    name with spaces and dots turned into underscores, with the join of
    the directory's path and its name as value; and all these paths are
    absolute when the root string is. *)
Theorem load_correct (root_dir : string) (listing : list DirEntry) :
  collision_free listing = true →
  OsPath.join (OsPath.dirname root_dir) [OsPath.basename root_dir] = root_dir →
  let pm := PathManager_init root_dir listing in
  all_dirs (node pm) ≡ₚ dir_paths root_dir listing
  ∧ (∀ p, (∃ n, reachable (node pm) n ∧ dir n = p)
          ↔ p ∈ dir_paths root_dir listing)
  ∧ (∀ p fname,
       (p, fname) ∈ file_paths root_dir listing →
       ∃ n, reachable (node pm) n ∧ dir n = p
            ∧ files n !! sanitize_file fname = Some (OsPath.join p [fname]))
  ∧ (valid_listing listing = true → OsPath.isabs root_dir = true →
     Forall (λ p, OsPath.isabs p = true) (dir_paths root_dir listing)).
Proof.
  intros Hfree Hroot pm.
  apply collision_free_elim in Hfree as (Hnd_d & Hnd_f & Hall).
  set (f0 := mkFolder (OsPath.basename root_dir) (OsPath.dirname root_dir) ∅ ∅).
  assert (dir f0 = root_dir) as Hdir0 by done.
  assert (all_dirs (node pm) ≡ₚ dir_paths root_dir listing) as Hperm.
  { subst pm. cbn [PathManager_init node]. fold f0.
    rewrite all_dirs_load_nested; [| |done|done|].
    - rewrite all_dirs_unfold. cbn [f0 subfolders].
      rewrite map_fold_empty. fold f0. by rewrite Hdir0.
    - apply Forall_forall. intros e _ p. apply all_dirs_load_dir.
    - intros k _. apply lookup_empty. }
  split; [done|]. split; [|split].
  - intros p. by rewrite <- elem_of_all_dirs, Hperm.
  - intros p fname Hin. subst pm. cbn [PathManager_init node]. fold f0.
    apply files_load_nested; try done.
    apply Forall_forall. intros e _ p' q' fname'. apply files_load_dir.
  - intros Hvalid Habs. unfold dir_paths. constructor; [done|].
    apply Forall_forall. intros q (e & He & Hq)%elem_of_flat_map.
    unfold valid_listing in Hvalid. rewrite forallb_forall in Hvalid.
    assert (valid_entry e = true) as Hv
      by (apply Hvalid; by apply list_elem_of_In).
    pose proof (entry_dirs_abs e root_dir Hv Habs) as Hall'.
    rewrite Forall_forall in Hall'. by apply Hall'.
Qed.

Lemma load_correct_witness :
  let pm := PathManager_init "/tmp/r" [EDir "Sub One" [EFile "a.txt"]] in
  all_dirs (node pm) ≡ₚ ["/tmp/r"; "/tmp/r/Sub One"]
  ∧ (∃ n, reachable (node pm) n ∧ dir n = "/tmp/r/Sub One"
          ∧ files n !! "a_txt" = Some "/tmp/r/Sub One/a.txt")
  ∧ Forall (λ p, OsPath.isabs p = true) ["/tmp/r"; "/tmp/r/Sub One"].
Proof.
  intros pm.
  destruct (load_correct "/tmp/r" [EDir "Sub One" [EFile "a.txt"]])
    as (Hperm & _ & Hfiles & Habs); [vm_compute; reflexivity..|].
  split; [exact Hperm|]. split.
  - apply (Hfiles "/tmp/r/Sub One" "a.txt"). by left.
  - apply Habs; vm_compute; reflexivity.
Defined.

(** The scenario of the specification, step by step. *)
Example scenario_sub_one :
  let pm := PathManager_init "/tmp/r" [EDir "Sub One" [EFile "a.txt"]] in
  dom (subfolders (node pm)) = {[ "Sub_One" ]}
  ∧ ∃ sub, getattr (node pm) "Sub_One" = Return (VFolder sub)
           ∧ dir sub = "/tmp/r/Sub One"
           ∧ getattr sub "a_txt" = Return (VStr "/tmp/r/Sub One/a.txt").
Proof.
  split; [vm_compute; reflexivity|].
  exists (mkFolder "Sub One" "/tmp/r" ∅ {[ "a_txt" := "/tmp/r/Sub One/a.txt" ]}).
  repeat split; vm_compute; reflexivity.
Qed.

(** C2 as stated fails: the sibling directories [a b] and [a_b] share
    the key [a_b]; the second one scanned replaces the first, and no node
    of the mirror answers [/tmp/r/a b]. *)
Lemma load_key_collision_loses_directory :
  ¬ (∀ (root_dir : string) (listing : list DirEntry) (p : string),
       p ∈ dir_paths root_dir listing →
       ∃ n, reachable (node (PathManager_init root_dir listing)) n
            ∧ dir n = p).
Proof.
  intros Hall.
  destruct (Hall "/tmp/r" [EDir "a b" []; EDir "a_b" []] "/tmp/r/a b")
    as (n & Hn & Hdir); [right; by left|].
  assert ("/tmp/r/a b"
          ∈ all_dirs (node (PathManager_init "/tmp/r"
                              [EDir "a b" []; EDir "a_b" []]))) as Hin
    by (apply elem_of_all_dirs; eauto).
  vm_compute in Hin.
  apply elem_of_cons in Hin as [?|Hin]; [discriminate|].
  apply elem_of_cons in Hin as [?|Hin]; [discriminate|].
  by apply elem_of_nil in Hin.
Qed.

Lemma reload_keeps_root_entries_witness :
  let pm' := reload example_pm [EDir "docs" [EFile "b.md"]] in
  subfolders (node pm') !! "Sub_One" = subfolders (node example_pm) !! "Sub_One"
  ∧ files (node pm') !! "notes_txt" = files (node example_pm) !! "notes_txt"
  ∧ ∃ n children,
      EDir n children ∈ [EDir "docs" [EFile "b.md"]]
      ∧ "docs" = sanitize_folder n
      ∧ subfolders (node pm') !! "docs" = Some (load_dir "/tmp/r" n children).
Proof.
  intros pm'.
  destruct (reload_keeps_root_entries example_pm [EDir "docs" [EFile "b.md"]])
    as (_ & _ & _ & Hdirs & Hfiles & Hscanned & _).
  split; [|split].
  - apply Hdirs. apply not_elem_of_cons. split; [discriminate|].
    apply not_elem_of_nil.
  - apply Hfiles. apply not_elem_of_nil.
  - destruct (Hscanned "docs") as (n & children & Hin & Hkey & Hlookup & _);
      [by left|].
    exists n, children. repeat split; assumption.
Defined.

Lemma reload_idempotent_witness :
  ∃ n2,
    node_at (node (reload (reload example_pm example_listing) example_listing))
      ["Sub_One"] = Some n2
    ∧ dom (files n2) = {[ "a_txt" ]}.
Proof.
  destruct (reload_idempotent example_pm example_listing) as (Hnodes & _ & _).
  destruct (Hnodes ["Sub_One"]
              (mkFolder "Sub One" "/tmp/r" ∅
                 {[ "a_txt" := "/tmp/r/Sub One/a.txt" ]}))
    as (n2 & Hn2 & _ & Hdom); [vm_compute; reflexivity|].
  exists n2. split; [exact Hn2|]. rewrite Hdom. vm_compute. reflexivity.
Defined.

(** ** The path functions on concrete inputs *)

Example join_abs : OsPath.join "/tmp/r" ["Sub One"; "a.txt"] = "/tmp/r/Sub One/a.txt".
Proof. reflexivity. Qed.
Example join_restart : OsPath.join "/tmp/r" ["/etc"; "x"] = "/etc/x".
Proof. reflexivity. Qed.
Example join_trailing : OsPath.join "/tmp/r/" ["a"] = "/tmp/r/a".
Proof. reflexivity. Qed.
Example join_empty : OsPath.join "" [""] = "" /\ OsPath.join "r" [""] = "r/".
Proof. split; reflexivity. Qed.
Example basename_ex : OsPath.basename "/tmp//r" = "r" /\ OsPath.basename "/tmp/r/" = "".
Proof. split; reflexivity. Qed.
Example dirname_ex :
  OsPath.dirname "/tmp//r" = "/tmp" /\ OsPath.dirname "/tmp/r/" = "/tmp/r"
  /\ OsPath.dirname "/r" = "/" /\ OsPath.dirname "r" = "" /\ OsPath.dirname "//" = "//".
Proof. repeat split; reflexivity. Qed.
Example normpath_ex :
  OsPath.normpath "/tmp//r/./a/../b/" = "/tmp/r/b" /\ OsPath.normpath "//x" = "//x"
  /\ OsPath.normpath "///x" = "/x" /\ OsPath.normpath "../a/.." = ".."
  /\ OsPath.normpath "/.." = "/" /\ OsPath.normpath "a/.." = ".".
Proof. repeat split; reflexivity. Qed.
Example relpath_ex :
  OsPath.relpath "/home/u" "/tmp/r/a/b/c" "/tmp/r" = Some "a/b/c"
  /\ OsPath.relpath "/home/u" "r/a" "r" = Some "a"
  /\ OsPath.relpath "/home/u" "/tmp/r" "/tmp/r" = Some "."
  /\ OsPath.relpath "/home/u" "/tmp/x" "/tmp/r/s" = Some "../../x"
  /\ OsPath.relpath "/home/u" "" "/tmp" = None.
Proof. repeat split; reflexivity. Qed.


(** ** The search path *)

Example add_to_sys_path_doc :
  add_to_sys_path "insert" 1 (mkFolder "folder" "/path/to" ∅ ∅) ["/usr/lib"; "/opt"]
  = (["/usr/lib"; "/path/to/folder"; "/opt"],
     "Inserted /path/to/folder at index 1 in system path.")
  ∧ add_to_sys_path "insert" (-1) (mkFolder "folder" "/path/to" ∅ ∅) ["/usr/lib"; "/opt"]
    = (["/usr/lib"; "/path/to/folder"; "/opt"],
       "Inserted /path/to/folder at index -1 in system path.")
  ∧ add_to_sys_path "invalid" 1 (mkFolder "folder" "/path/to" ∅ ∅) []
    = ([], "Invalid method: invalid. Use 'insert' or 'append'.").
Proof. repeat split; vm_compute; reflexivity. Qed.








(** ** More on lookup and remove *)

Lemma has_char_sanitize_folder (s : string) :
  Str.has_char " " (sanitize_folder s) = false.
Proof.
  unfold sanitize_folder. induction s as [|c s IH]; [done|]. simpl.
  rewrite IH, orb_false_r. by destruct (Ascii.eqb_spec c " ") as [->|Hc]; [|apply Ascii.eqb_neq].
Qed.

(** X4: on a node none of whose subfolder keys contains a space (every
    node that the loader or [mkdir] builds), the lookup is decided by the
    name as given: the subfolder under it, else the file under it, else
    the error; the underscore-to-space form never finds anything else. *)
Theorem getattr_by_key (self : Folder) (item : string) :
  space_free_keys self →
  getattr self item =
    match subfolders self !! item with
    | Some sub => Return (VFolder sub)
    | None =>
        match files self !! item with
        | Some path => Return (VStr path)
        | None =>
            Raise (AttributeError
                     ("'" +:+ item +:+ "' not found in folder '"
                          +:+ name self +:+ "'"))
        end
    end.
Proof.
  intros Hkeys. unfold getattr.
  destruct (replace_underscore_cases item) as [->|Hspace]; [by case_match|].
  destruct (subfolders self !! Str.replace "_" " " item) as [sub|] eqn:E;
    [|done].
  assert (is_Some (subfolders self !! Str.replace "_" " " item)) as Hsome
    by eauto.
  apply Hkeys in Hsome. congruence.
Qed.

Lemma getattr_by_key_witness :
  getattr (node example_pm) "notes_txt" = Return (VStr "/tmp/r/notes.txt").
Proof.
  rewrite (getattr_by_key (node example_pm) "notes_txt" example_space_free).
  vm_compute. reflexivity.
Defined.

Lemma replace_same_key (t t' : string) :
  Str.replace " " "_" t = Str.replace " " "_" t' →
  Str.replace "_" " " t = Str.replace "_" " " t'.
Proof.
  revert t'. induction t as [|c t IH]; intros [|c' t']; simpl; try done.
  intros [= Hc Ht]. rewrite (IH t' Ht). f_equal.
  destruct (Ascii.eqb_spec c " ") as [->|Hc1],
           (Ascii.eqb_spec c' " ") as [->|Hc1']; simpl in *; try done.
  - subst c'. done.
  - subst c. done.
  - by subst c'.
Qed.

Lemma replace_idem (old new : ascii) (s : string) :
  Str.replace old new (Str.replace old new s) = Str.replace old new s.
Proof.
  induction s as [|c s IH]; [done|]. simpl. rewrite IH. f_equal.
  destruct (Ascii.eqb_spec c old) as [->|Hc].
  - by destruct (Ascii.eqb new old).
  - by apply Ascii.eqb_neq in Hc as ->.
Qed.

Lemma replace_underscore_then_space (s : string) :
  Str.replace " " "_" (Str.replace "_" " " s) = Str.replace " " "_" s.
Proof.
  induction s as [|c s IH]; [done|]. simpl. rewrite IH. f_equal.
  destruct (Ascii.eqb_spec c "_") as [->|Hc]; [done|].
  done.
Qed.

Section RemoveMore.
Context `{Platform}.

Lemma remove_same_key (t t' : string) (w : world) :
  Str.replace " " "_" t = Str.replace " " "_" t' →
  call (Remove t) w = call (Remove t') w.
Proof.
  intros Hkey. unfold call, remove.
  by rewrite Hkey, (replace_same_key t t' Hkey).
Qed.

(** X5: [remove] does not tell spaces from underscores in its argument:
    the name as given, the name with its spaces turned into underscores
    and the name with its underscores turned into spaces are one and the
    same call (same outcome, same mirror, same disk, same line
    printed). *)
Theorem remove_spelling (target : string) (w : world) :
  call (Remove (Str.replace " " "_" target)) w = call (Remove target) w
  ∧ call (Remove (Str.replace "_" " " target)) w = call (Remove target) w.
Proof.
  split; apply remove_same_key.
  - apply replace_idem.
  - apply replace_underscore_then_space.
Qed.

(** X6: removing twice.  After a [remove] that deleted a subfolder whose
    key is not a file key, or that deleted a file, the same [remove]
    again finds nothing: it prints the not-found line and leaves mirror
    and disk as the first call left them. *)
Theorem remove_twice (target : string) (w : world) (d : disk) :
  let key := Str.replace " " "_" target in
  let not_found w1 :=
    (Return VNone,
     mkWorld (self w1) (fs w1)
       (stdout w1 ++ ["'" +:+ Str.replace "_" " " target
                          +:+ "' not found in '" +:+ dir (self w) +:+ "'"])) in
  (∀ sub, subfolders (self w) !! key = Some sub →
          files (self w) !! key = None →
          rmtree (OsPath.join (dir (self w)) [name sub]) (fs w) = (true, d) →
          call (Remove target) (snd (call (Remove target) w))
          = not_found (snd (call (Remove target) w)))
  ∧ (∀ path, subfolders (self w) !! key = None →
             files (self w) !! key = Some path →
             os_remove path (fs w) = (true, d) →
             call (Remove target) (snd (call (Remove target) w))
             = not_found (snd (call (Remove target) w))).
Proof.
  intros key not_found. subst not_found. cbv beta. split.
  - intros sub Hsub Hfile Hd.
    assert (call (Remove target) w =
              (Return VNone,
               mkWorld (set_subfolders (self w) (delete key (subfolders (self w))))
                 d (stdout w ++ ["Subfolder '" +:+ Str.replace "_" " " target
                                 +:+ "' has been removed from '"
                                 +:+ dir (self w) +:+ "'"]))) as ->.
    { unfold call, remove. fold key. by rewrite Hsub, Hd. }
    cbn [snd]. unfold call, remove.
    cbn [self fs stdout set_subfolders subfolders files]. fold key.
    by rewrite lookup_delete_eq, Hfile.
  - intros path Hsub Hfile Hd.
    assert (call (Remove target) w =
              (Return VNone,
               mkWorld (set_files (self w) (delete key (files (self w))))
                 d (stdout w ++ ["File '" +:+ Str.replace "_" " " target
                                 +:+ "' has been removed from '"
                                 +:+ dir (self w) +:+ "'"]))) as ->.
    { unfold call, remove. fold key. by rewrite Hsub, Hfile, Hd. }
    cbn [snd]. unfold call, remove.
    cbn [self fs stdout set_files subfolders files]. fold key.
    by rewrite Hsub, lookup_delete_eq.
Qed.

(** X7: whatever its outcome, [remove] keeps the node's name and parent
    path, touches no entry of either dictionary other than the one under
    the target's key, and changes at most one of the two dictionaries. *)
Theorem remove_frame (target : string) (w : world) :
  let key := Str.replace " " "_" target in
  let self' := self (snd (call (Remove target) w)) in
  name self' = name (self w)
  ∧ parent_path self' = parent_path (self w)
  ∧ (∀ k, k ≠ key → subfolders self' !! k = subfolders (self w) !! k)
  ∧ (∀ k, k ≠ key → files self' !! k = files (self w) !! k)
  ∧ (subfolders self' = subfolders (self w) ∨ files self' = files (self w)).
Proof.
  intros key self'. subst self'. unfold call, remove. fold key.
  destruct (subfolders (self w) !! key) as [sub|].
  { destruct (rmtree _ _) as [[] d]; cbn; [|by auto 6].
    repeat split; [|by right]. intros k Hk. by apply lookup_delete_ne. }
  destruct (files (self w) !! key) as [path|]; [|cbn; by auto 6].
  destruct (os_remove _ _) as [[] d]; cbn; [|by auto 6].
  repeat split; [|by left]. intros k Hk. by apply lookup_delete_ne.
Qed.

End RemoveMore.

Lemma remove_twice_witness :
  call (Remove "Sub One") (snd (call (Remove "Sub One") example_world))
  = (Return VNone,
     mkWorld (self (snd (call (Remove "Sub One") example_world)))
       [Rmtree "/tmp/r/Sub One"]
       ["Subfolder 'Sub One' has been removed from '/tmp/r'";
        "'Sub One' not found in '/tmp/r'"]).
Proof.
  destruct (remove_twice "Sub One" example_world [Rmtree "/tmp/r/Sub One"])
    as [Hsub _].
  rewrite (Hsub (mkFolder "Sub One" "/tmp/r" ∅
                   {[ "a_txt" := "/tmp/r/Sub One/a.txt" ]}));
    [|vm_compute; reflexivity..].
  vm_compute. reflexivity.
Defined.

(** ** More on mkdir *)

Lemma mkdir_walk_idem (parts : list string) (f : Folder) :
  mkdir_walk (mkdir_walk f parts) parts = mkdir_walk f parts.
Proof.
  revert f. induction parts as [|part rest IH]; intros f; [done|].
  rewrite (mkdir_walk_cons (mkdir_walk f (part :: rest))).
  rewrite (child_for_existing _ part _ (mkdir_walk_lookup f part rest)), IH.
  rewrite mkdir_walk_cons. cbn [set_subfolders subfolders name parent_path files].
  unfold set_subfolders. cbn. by rewrite insert_insert_eq.
Qed.

Lemma mkdir_walk_keeps_nodes (parts ks : list string) (f n : Folder) :
  node_at f ks = Some n →
  ∃ n', node_at (mkdir_walk f parts) ks = Some n'
        ∧ name n' = name n ∧ parent_path n' = parent_path n
        ∧ files n' = files n.
Proof.
  revert f parts. induction ks as [|k ks IH]; intros f parts Hat; simpl in Hat.
  - simplify_eq. exists (mkdir_walk n parts). split; [done|].
    apply mkdir_walk_frame.
  - destruct (subfolders f !! k) as [c|] eqn:Hk; [|done].
    destruct parts as [|part rest].
    { exists n. simpl. by rewrite Hk. }
    destruct (decide (k = Str.replace " " "_" part)) as [->|Hne].
    + destruct (IH c rest Hat) as (n' & Hn' & Hframe).
      exists n'. split; [|done]. cbn [node_at].
      by rewrite mkdir_walk_lookup, (child_for_existing f part c Hk).
    + exists n. split; [|done]. cbn [node_at]. rewrite mkdir_walk_cons.
      cbn [subfolders set_subfolders].
      by rewrite lookup_insert_ne, Hk by done.
Qed.

Lemma join2_assoc_plain (d a b : string) :
  plain a → Str.startswith OsPath.sep b = false →
  OsPath.join2 d (a +:+ String OsPath.sep b)
  = OsPath.join2 (OsPath.join2 d a) b.
Proof.
  intros Ha Hb. destruct (join2_plain_shape d a Ha) as [Hne Hend].
  rewrite (join2_rel (OsPath.join2 d a) b Hne Hb), Hend.
  rewrite (join2_plain d a Ha).
  assert (Str.startswith OsPath.sep (a +:+ String OsPath.sep b) = false)
    as Hab.
  { pose proof Ha as (Hane & _). rewrite startswith_app by done.
    by apply plain_not_abs. }
  destruct (String.eqb_spec d "") as [->|Hd].
  - unfold OsPath.join2. by rewrite Hab.
  - rewrite (join2_rel d _ Hd Hab).
    destruct (Str.endswith OsPath.sep d); by rewrite ?append_assoc, ?append_cons.
Qed.

Section MkdirMore.
Context `{Platform}.

(** X8: calling [mkdir] a second time with the same arguments changes
    nothing in the mirror: if the first call returned and the
    create-chain primitive accepts the path again, the second call
    returns with the node exactly as the first call left it. *)
Theorem mkdir_twice (args : list string) (w w1 : world) (d2 : disk) :
  call (Mkdir args) w = (Return VNone, w1) →
  makedirs_exist_ok (OsPath.join (dir (self w)) args) (fs w1) = (true, d2) →
  call (Mkdir args) w1 = (Return VNone, mkWorld (self w1) d2 (stdout w1)).
Proof.
  unfold call, mkdir. intros Hfirst Hd2.
  destruct (makedirs_exist_ok _ (fs w)) as [[] d1]; [|done].
  destruct (OsPath.relpath _ _ _) as [rel|] eqn:Hrel; [|done].
  injection Hfirst as <-. cbn [self fs stdout] in *.
  rewrite mkdir_walk_dir, Hd2, Hrel. by rewrite mkdir_walk_idem.
Qed.

(** X9: a segment written with a separator inside is the same as its
    two halves given as two segments: for a plain name [a] and a [b] that
    does not start with a separator, [mkdir(a/b, ...)] and
    [mkdir(a, b, ...)] are the same call. *)
Theorem mkdir_slash_segment (a b : string) (rest : list string) (w : world) :
  plain a → Str.startswith OsPath.sep b = false →
  call (Mkdir ((a +:+ String OsPath.sep b) :: rest)) w
  = call (Mkdir (a :: b :: rest)) w.
Proof.
  intros Ha Hb. unfold call, mkdir.
  change (OsPath.join (dir (self w)) ((a +:+ String OsPath.sep b) :: rest))
    with (OsPath.join
            (OsPath.join2 (dir (self w)) (a +:+ String OsPath.sep b)) rest).
  change (OsPath.join (dir (self w)) (a :: b :: rest))
    with (OsPath.join (OsPath.join2 (OsPath.join2 (dir (self w)) a) b) rest).
  by rewrite join2_assoc_plain.
Qed.

(** X10: [mkdir] never drops anything from the mirror: whatever the
    arguments and the outcome, every key path that led to a node before
    the call leads to a node after it, with the same name, parent path
    and files. *)
Theorem mkdir_keeps_nodes (args ks : list string) (w : world) (n : Folder) :
  node_at (self w) ks = Some n →
  ∃ n', node_at (self (snd (call (Mkdir args) w))) ks = Some n'
        ∧ name n' = name n ∧ parent_path n' = parent_path n
        ∧ files n' = files n.
Proof.
  intros Hat. unfold call, mkdir.
  destruct (makedirs_exist_ok _ _) as [[] d]; [|by exists n].
  destruct (OsPath.relpath _ _ _) as [rel|]; [|by exists n].
  cbn [snd self]. by apply mkdir_walk_keeps_nodes.
Qed.

Lemma getattr_space_free_child (f c : Folder) (k : string) :
  space_free_keys f → subfolders f !! k = Some c →
  getattr f k = Return (VFolder c).
Proof.
  intros Hkeys Hk. unfold getattr.
  destruct (replace_underscore_cases k) as [->|Hspace]; [by rewrite Hk|].
  destruct (subfolders f !! Str.replace "_" " " k) as [sub|] eqn:E.
  - assert (is_Some (subfolders f !! Str.replace "_" " " k)) as Hsome by eauto.
    apply Hkeys in Hsome. congruence.
  - by rewrite Hk.
Qed.

Lemma mkdir_walk_space_free (f : Folder) (parts : list string) :
  space_free_keys f → space_free_keys (mkdir_walk f parts).
Proof.
  intros Hkeys. destruct parts as [|part rest]; [done|].
  rewrite mkdir_walk_cons. intros k [c Hk]. cbn in Hk.
  apply lookup_insert_Some in Hk as [[<- _]|[_ Hk]].
  - apply has_char_sanitize_folder.
  - apply Hkeys. eauto.
Qed.

(** X11: a directory made by [mkdir] is found under its sanitized name.
    For a plain segment [s] (spaces allowed), on a node whose subfolder
    keys contain no space and whose child under the key of [s], if there
    is one, is named [s] with the node's [dir()] as parent path:
    after [mkdir(s)] the lookup of [s] with its spaces turned into
    underscores gives a node named [s] whose [dir()] is
    [join(dir, s)]. *)
Theorem mkdir_then_lookup (s : string) (w : world) (d : disk) :
  plain s → space_free_keys (self w) → chain_linked (self w) [s] →
  makedirs_exist_ok (OsPath.join (dir (self w)) [s]) (fs w) = (true, d) →
  ∃ self' n,
    call (Mkdir [s]) w = (Return VNone, mkWorld self' d (stdout w))
    ∧ getattr self' (sanitize_folder s) = Return (VFolder n)
    ∧ name n = s
    ∧ dir n = OsPath.join (dir (self w)) [s].
Proof.
  intros Hs Hkeys Hchain Hd.
  destruct (chain_linked_child _ _ _ Hchain) as (Hname & Hparent & _).
  exists (mkdir_walk (self w) [s]), (child_for (self w) s).
  split; [by apply mkdir_plain|]. split; [|split; [done|]].
  - apply getattr_space_free_child; [by apply mkdir_walk_space_free|].
    apply (mkdir_walk_lookup (self w) s []).
  - unfold dir at 1. by rewrite Hname, Hparent.
Qed.

(** X12: [mkdir] then [remove] of a new plain segment is a round trip:
    when the segment's key was in neither dictionary before, [mkdir(s)]
    followed by [remove(s)] gives back the node exactly as it was, and
    the recursive delete is called on the very path that was created. *)
Theorem mkdir_then_remove (s : string) (w : world) (d1 d2 : disk) :
  plain s →
  subfolders (self w) !! Str.replace " " "_" s = None →
  makedirs_exist_ok (OsPath.join (dir (self w)) [s]) (fs w) = (true, d1) →
  rmtree (OsPath.join (dir (self w)) [s]) d1 = (true, d2) →
  ∃ line,
    call (Remove s) (snd (call (Mkdir [s]) w))
    = (Return VNone, mkWorld (self w) d2 (stdout w ++ [line])).
Proof.
  intros Hs Hfresh Hd1 Hd2.
  rewrite (mkdir_plain w s [] d1) by done. cbn [snd].
  unfold call, remove. cbn [self fs stdout].
  rewrite mkdir_walk_lookup. unfold child_for. rewrite Hfresh.
  change (mkdir_walk (mkFolder s (dir (self w)) ∅ ∅) [])
    with (mkFolder s (dir (self w)) ∅ ∅).
  cbn [name]. rewrite mkdir_walk_dir, Hd2.
  eexists. f_equal. f_equal.
  rewrite mkdir_walk_cons. unfold set_subfolders.
  cbn [name parent_path subfolders files].
  rewrite delete_insert_id by done. by destruct (self w).
Qed.

End MkdirMore.

Lemma mkdir_twice_witness :
  call (Mkdir ["a"; "b"]) (snd (call (Mkdir ["a"; "b"]) example_world))
  = (Return VNone,
     mkWorld (self (snd (call (Mkdir ["a"; "b"]) example_world)))
       [Makedirs "/tmp/r/a/b"; Makedirs "/tmp/r/a/b"] []).
Proof.
  apply (mkdir_twice ["a"; "b"] example_world
           (snd (call (Mkdir ["a"; "b"]) example_world))
           [Makedirs "/tmp/r/a/b"; Makedirs "/tmp/r/a/b"]);
    vm_compute; reflexivity.
Defined.

Lemma mkdir_slash_segment_witness :
  call (Mkdir ["a/b"]) example_world = call (Mkdir ["a"; "b"]) example_world.
Proof.
  apply (mkdir_slash_segment "a" "b" [] example_world); [|reflexivity].
  repeat split; discriminate.
Defined.

Lemma mkdir_keeps_nodes_witness :
  ∃ n', node_at (self (snd (call (Mkdir ["Sub One"; "x"]) example_world)))
          ["Sub_One"] = Some n'
        ∧ files n' = {[ "a_txt" := "/tmp/r/Sub One/a.txt" ]}.
Proof.
  destruct (mkdir_keeps_nodes ["Sub One"; "x"] ["Sub_One"] example_world
              (mkFolder "Sub One" "/tmp/r" ∅
                 {[ "a_txt" := "/tmp/r/Sub One/a.txt" ]}))
    as (n' & Hn' & _ & _ & Hfiles); [vm_compute; reflexivity|].
  exists n'. split; assumption.
Defined.

Lemma mkdir_then_lookup_witness :
  ∃ self' n,
    call (Mkdir ["my dir"]) example_world
    = (Return VNone, mkWorld self' [Makedirs "/tmp/r/my dir"] [])
    ∧ getattr self' "my_dir" = Return (VFolder n)
    ∧ name n = "my dir"
    ∧ dir n = "/tmp/r/my dir".
Proof.
  apply (mkdir_then_lookup "my dir" example_world [Makedirs "/tmp/r/my dir"]).
  - repeat split; discriminate.
  - exact example_space_free.
  - vm_compute. exact I.
  - vm_compute. reflexivity.
Defined.

Lemma mkdir_then_remove_witness :
  ∃ line,
    call (Remove "my dir") (snd (call (Mkdir ["my dir"]) example_world))
    = (Return VNone,
       mkWorld (node example_pm)
         [Makedirs "/tmp/r/my dir"; Rmtree "/tmp/r/my dir"] [line]).
Proof.
  apply (mkdir_then_remove "my dir" example_world
           [Makedirs "/tmp/r/my dir"]
           [Makedirs "/tmp/r/my dir"; Rmtree "/tmp/r/my dir"]).
  - repeat split; discriminate.
  - vm_compute. reflexivity.
  - vm_compute. reflexivity.
  - vm_compute. reflexivity.
Defined.

(** ** The root string *)

Section RootString.
Import OsPath.

Lemma rcut_spec (p : string) :
  p = fst (rcut p) +:+ snd (rcut p)
  ∧ Str.has_char sep (snd (rcut p)) = false
  ∧ (fst (rcut p) = "" ∨ Str.endswith sep (fst (rcut p)) = true).
Proof.
  induction p as [|c p (Hp & Hfree & Hhead)]; [by auto|]. simpl.
  destruct (rcut p) as [h t]. cbn [fst snd] in *.
  destruct h as [|a h].
  - rewrite append_nil_l in Hp. subst t.
    destruct (Ascii.eqb_spec c sep) as [->|Hc]; cbn [fst snd].
    + by auto.
    + split; [done|]. split; [|by left]. simpl.
      apply Ascii.eqb_neq in Hc. by rewrite Hc.
  - cbn [fst snd]. rewrite append_cons, <- Hp. split; [done|].
    split; [done|]. right. destruct Hhead as [?|Hend]; [done|]. exact Hend.
Qed.

Lemma rstrip_snoc (c : ascii) (x : string) :
  Str.rstrip c (x +:+ String c "") = Str.rstrip c x.
Proof.
  induction x as [|a x IH]; app_norm; simpl.
  - by rewrite Ascii.eqb_refl.
  - by rewrite IH.
Qed.

Lemma rstrip_id (c : ascii) (x : string) :
  Str.endswith c x = false → Str.rstrip c x = x.
Proof.
  induction x as [|a x IH]; [done|]. simpl. destruct x as [|b x].
  - simpl. by intros ->.
  - intros Hend. by rewrite (IH Hend).
Qed.

Lemma times_all_sep_endswith (x : string) :
  x ≠ "" → x = Str.times sep (String.length x) → Str.endswith sep x = true.
Proof.
  induction x as [|a x IH]; [done|]. intros _. simpl. intros [= -> Hx].
  destruct x as [|b x]; [done|]. by apply IH.
Qed.

Lemma times_app_l (x y : string) :
  x +:+ y = Str.times sep (String.length (x +:+ y)) →
  x = Str.times sep (String.length x).
Proof.
  induction x as [|a x IH]; [done|]. rewrite append_cons. simpl.
  intros [= -> Hx]. by rewrite <- (IH Hx).
Qed.

(** Taking a string without doubled separator apart with [dirname] and
    [basename] and joining the halves gives the string back. *)
Lemma split_join_root (r : string) :
  Str.contains "//" r = false → join (dirname r) [basename r] = r.
Proof.
  intros Hdouble. change (join (dirname r) [basename r])
    with (join2 (dirname r) (basename r)).
  unfold dirname, basename.
  destruct (rcut_spec r) as (Hr & Hfree & Hhead).
  destruct (rcut r) as [head tail]. cbn [fst snd] in *.
  assert (Str.startswith sep tail = false) as Htail.
  { destruct tail; [done|]. simpl in *. by apply orb_false_elim in Hfree as [-> _]. }
  destruct Hhead as [->|Hend].
  { simpl. unfold join2. rewrite Htail. by rewrite Hr. }
  apply endswith_sep_inv in Hend as [h0 ->].
  destruct (String.eqb_spec h0 "") as [->|Hh0].
  { simpl. unfold join2. rewrite Htail. by rewrite Hr. }
  assert (Str.endswith sep h0 = false) as Hend0.
  { destruct (Str.endswith sep h0) eqn:E; [|done].
    apply endswith_sep_inv in E as [h1 ->].
    assert (Str.contains "//" r = true) as Hc; [|congruence].
    rewrite Hr.
    replace (((h1 +:+ String sep "") +:+ String sep "") +:+ tail)
      with (h1 +:+ ("//" +:+ tail)) by (by rewrite !append_assoc).
    apply contains_app_r, contains_here. }
  assert (String.eqb (h0 +:+ String sep "") "" = false) as ->
    by (apply String.eqb_neq; by intros [? _]%append_eq_nil).
  assert (String.eqb (h0 +:+ String sep "")
            (Str.times sep (String.length (h0 +:+ String sep ""))) = false)
    as ->.
  { apply String.eqb_neq. intros Hall%times_app_l.
    apply times_all_sep_endswith in Hall; [congruence|done]. }
  simpl negb. simpl andb. cbv iota.
  rewrite rstrip_snoc, (rstrip_id _ _ Hend0).
  rewrite (join2_rel h0 tail Hh0 Htail), Hend0.
  rewrite Hr. by rewrite append_assoc, append_cons, append_nil_l.
Qed.

End RootString.

(** X13: a manager constructed on a root string without doubled
    separator answers that very string from [dir()], and keeps answering
    it after any [reload]. *)
Theorem root_dir_round_trip (root_dir : string) (listing later : list DirEntry) :
  Str.contains "//" root_dir = false →
  dir (node (PathManager_init root_dir listing)) = root_dir
  ∧ dir (node (reload (PathManager_init root_dir listing) later)) = root_dir
  ∧ root (reload (PathManager_init root_dir listing) later) = root_dir.
Proof.
  intros Hdouble. cbn [PathManager_init reload node root].
  rewrite !load_nested_dir. split; [|split; [|done]];
    by apply split_join_root.
Qed.

Lemma root_dir_round_trip_witness :
  dir (node (PathManager_init "/tmp/r/" example_listing)) = "/tmp/r/".
Proof.
  apply (root_dir_round_trip "/tmp/r/" example_listing []). reflexivity.
Defined.

(** ** Invariants of the whole tree *)

Lemma everywhere_unfold (Q : Folder → Prop) (f : Folder) :
  everywhere Q f ↔
  Q f ∧ ∀ k c, subfolders f !! k = Some c → everywhere Q c.
Proof.
  split.
  - intros Hall. split; [apply Hall; by exists []|].
    intros k c Hk n Hn. apply Hall. by apply (reachable_child f c n k).
  - intros [Hf Hchildren] n [ks Hks]. destruct ks as [|k ks]; simpl in Hks.
    + by simplify_eq.
    + destruct (subfolders f !! k) as [c|] eqn:Hk; [|done].
      apply (Hchildren k c Hk). by exists ks.
Qed.

Lemma node_at_app (f n : Folder) (ks ks' : list string) :
  node_at f ks = Some n → node_at f (ks ++ ks') = node_at n ks'.
Proof.
  revert f. induction ks as [|k ks IH]; intros f Hat; simpl in *.
  - by simplify_eq.
  - destruct (subfolders f !! k); [by apply IH|done].
Qed.

Lemma everywhere_node_at (Q : Folder → Prop) (f n : Folder) (ks : list string) :
  everywhere Q f → node_at f ks = Some n → everywhere Q n.
Proof.
  intros Hall Hat n' [ks' Hn']. apply Hall. exists (ks ++ ks').
  by rewrite (node_at_app f n ks ks' Hat).
Qed.

Section Everywhere.
Variable Q : Folder → Prop.
Variable ok : string → Folder → Prop.
Hypothesis Q_fresh : ∀ n p, Q (mkFolder n p ∅ ∅).
Hypothesis ok_fresh : ∀ n p, ok (OsPath.join p [n]) (mkFolder n p ∅ ∅).
Hypothesis ok_dir : ∀ f, ok (dir f) f.
Hypothesis ok_subfolders : ∀ p f m, ok p f → ok p (set_subfolders f m).
Hypothesis ok_files : ∀ p f m, ok p f → ok p (set_files f m).
Hypothesis Q_put :
  ∀ f p n c, Q f → ok p f → name c = n → parent_path c = p →
             Q (set_subfolders f (<[sanitize_folder n := c]> (subfolders f))).
Hypothesis Q_swap :
  ∀ f k c c', Q f → subfolders f !! k = Some c →
              name c' = name c → parent_path c' = parent_path c →
              Q (set_subfolders f (<[k := c']> (subfolders f))).
Hypothesis Q_file :
  ∀ f n path, Q f → Q (set_files f (<[sanitize_file n := path]> (files f))).
Hypothesis Q_del_sub :
  ∀ f k, Q f → Q (set_subfolders f (delete k (subfolders f))).
Hypothesis Q_del_file :
  ∀ f k, Q f → Q (set_files f (delete k (files f))).

Lemma everywhere_fresh (n p : string) : everywhere Q (mkFolder n p ∅ ∅).
Proof.
  apply everywhere_unfold. split; [apply Q_fresh|].
  intros k c Hk. cbn in Hk. by rewrite lookup_empty in Hk.
Qed.

Lemma everywhere_put (f c : Folder) (p n : string) :
  everywhere Q f → ok p f → everywhere Q c →
  name c = n → parent_path c = p →
  everywhere Q (set_subfolders f (<[sanitize_folder n := c]> (subfolders f))).
Proof.
  intros [Hf Hchildren]%everywhere_unfold Hok Hc Hn Hp.
  apply everywhere_unfold. split; [by apply (Q_put f p n c)|].
  intros k c' Hlk; cbn in Hlk;
      apply lookup_insert_Some in Hlk as [[_ <-]|[_ Hk]]; [done|].
  by apply (Hchildren k).
Qed.

Lemma everywhere_swap (f c c' : Folder) (k : string) :
  everywhere Q f → subfolders f !! k = Some c → everywhere Q c' →
  name c' = name c → parent_path c' = parent_path c →
  everywhere Q (set_subfolders f (<[k := c']> (subfolders f))).
Proof.
  intros [Hf Hchildren]%everywhere_unfold Hk Hc' Hn Hp.
  apply everywhere_unfold. split; [by apply (Q_swap f k c c')|].
  intros j x Hlk; cbn in Hlk;
      apply lookup_insert_Some in Hlk as [[_ <-]|[_ Hj]]; [done|].
  by apply (Hchildren j).
Qed.

Lemma everywhere_file (f : Folder) (n path : string) :
  everywhere Q f →
  everywhere Q (set_files f (<[sanitize_file n := path]> (files f))).
Proof.
  intros [Hf Hchildren]%everywhere_unfold.
  apply everywhere_unfold. split; [by apply Q_file|done].
Qed.

Lemma everywhere_del_sub (f : Folder) (k : string) :
  everywhere Q f → everywhere Q (set_subfolders f (delete k (subfolders f))).
Proof.
  intros [Hf Hchildren]%everywhere_unfold.
  apply everywhere_unfold. split; [by apply Q_del_sub|].
  intros j c Hlk; cbn in Hlk;
      apply lookup_delete_Some in Hlk as [_ Hj]. by apply (Hchildren j).
Qed.

Lemma everywhere_del_file (f : Folder) (k : string) :
  everywhere Q f → everywhere Q (set_files f (delete k (files f))).
Proof.
  intros [Hf Hchildren]%everywhere_unfold.
  apply everywhere_unfold. split; [by apply Q_del_file|done].
Qed.

Lemma everywhere_load_fold (p : string) (listing : list DirEntry) (f : Folder) :
  Forall (λ e, ∀ p f, everywhere Q f → ok p f →
                      everywhere Q (load_entry p f e)) listing →
  everywhere Q f → ok p f →
  everywhere Q (load_nested_directories p listing f).
Proof.
  intros Hall. revert f.
  induction Hall as [|e listing He _ IH]; intros f Hf Hok; [done|].
  rewrite load_nested_cons. apply IH; [by apply He|].
  destruct e; [by apply ok_subfolders|by apply ok_files|done].
Qed.

Lemma everywhere_load_entry (e : DirEntry) (p : string) (f : Folder) :
  everywhere Q f → ok p f → everywhere Q (load_entry p f e).
Proof.
  revert p f. induction e as [n children IH|n|n] using DirEntry_nested_ind;
    intros p f Hf Hok; [| |done].
  - rewrite load_entry_dir.
    destruct (load_dir_frame p n children) as [Hname Hparent].
    apply (everywhere_put f _ p n); try done.
    apply everywhere_load_fold; [done|apply everywhere_fresh|apply ok_fresh].
  - rewrite load_entry_file. by apply everywhere_file.
Qed.

Lemma everywhere_load (p : string) (listing : list DirEntry) (f : Folder) :
  everywhere Q f → ok p f →
  everywhere Q (load_nested_directories p listing f).
Proof.
  apply everywhere_load_fold, Forall_forall. intros e _ p' f'.
  apply everywhere_load_entry.
Qed.

Lemma everywhere_walk (parts : list string) (f : Folder) :
  everywhere Q f → everywhere Q (mkdir_walk f parts).
Proof.
  revert f. induction parts as [|part rest IH]; intros f Hf; [done|].
  rewrite mkdir_walk_cons.
  destruct (mkdir_walk_frame (child_for f part) rest) as (Hname & Hparent & _).
  unfold child_for in *.
  destruct (subfolders f !! Str.replace " " "_" part) as [c|] eqn:Hc.
  - apply (everywhere_swap f c); try done.
    apply IH. apply everywhere_unfold in Hf as [_ Hchildren].
    by apply (Hchildren _ c Hc).
  - apply (everywhere_put f _ (dir f) part); try done.
    apply IH, everywhere_fresh.
Qed.

Lemma everywhere_update_at (ks : list string) (f n n' : Folder) :
  node_at f ks = Some n → everywhere Q f → everywhere Q n' →
  name n' = name n → parent_path n' = parent_path n →
  everywhere Q (update_at ks n' f)
  ∧ name (update_at ks n' f) = name f
  ∧ parent_path (update_at ks n' f) = parent_path f.
Proof.
  revert f. induction ks as [|k ks IH]; intros f Hat Hf Hn' Hname Hparent;
    simpl in *.
  - by simplify_eq.
  - destruct (subfolders f !! k) as [c|] eqn:Hk; [|done].
    pose proof Hf as [_ Hchildren]%everywhere_unfold.
    destruct (IH c Hat (Hchildren k c Hk) Hn' Hname Hparent)
      as (Hall & Hnm & Hpp).
    split; [|done]. by apply (everywhere_swap f c).
Qed.

Context `{Platform}.

Lemma everywhere_call (m : method) (w : world) :
  everywhere Q (self w) →
  everywhere Q (self (snd (call m w)))
  ∧ name (self (snd (call m w))) = name (self w)
  ∧ parent_path (self (snd (call m w))) = parent_path (self w).
Proof.
  intros Hall. destruct m as [item| |target|args]; simpl; [done|done| |].
  - unfold remove.
    destruct (subfolders (self w) !! _) as [sub|].
    { destruct (rmtree _ _) as [[] d]; simpl; [|done].
      split; [by apply everywhere_del_sub|done]. }
    destruct (files (self w) !! _) as [path|]; [|done].
    destruct (os_remove _ _) as [[] d]; simpl; [|done].
    split; [by apply everywhere_del_file|done].
  - unfold mkdir. destruct (makedirs_exist_ok _ _) as [[] d]; [|done].
    destruct (OsPath.relpath _ _ _) as [rel|]; simpl; [|done].
    split; [by apply everywhere_walk|].
    by destruct (mkdir_walk_frame (self w) (Str.split OsPath.sep rel))
      as (-> & -> & _).
Qed.

Lemma everywhere_call_at (ks : list string) (m : method) (w : world)
    (o : outcome) (w' : world) :
  everywhere Q (self w) → call_at ks m w = Some (o, w') →
  everywhere Q (self w').
Proof.
  intros Hall Hcall. unfold call_at in Hcall.
  destruct (node_at (self w) ks) as [n|] eqn:Hat; [|done].
  injection Hcall as _ <-. cbn [self].
  pose proof (everywhere_node_at Q _ _ _ Hall Hat) as Hn.
  destruct (everywhere_call m (mkWorld n (fs w) (stdout w)) Hn)
    as (Hall' & Hname & Hparent).
  by apply (everywhere_update_at ks (self w) n).
Qed.

End Everywhere.

Lemma has_char_replace_same (c new : ascii) (s : string) :
  new ≠ c → Str.has_char c (Str.replace c new s) = false.
Proof.
  intros Hne. induction s as [|a s IH]; [done|]. simpl. rewrite IH, orb_false_r.
  destruct (Ascii.eqb_spec a c); by apply Ascii.eqb_neq.
Qed.

Lemma has_char_replace_other (c old new : ascii) (s : string) :
  new ≠ c → Str.has_char c s = false →
  Str.has_char c (Str.replace old new s) = false.
Proof.
  intros Hne. induction s as [|a s IH]; [done|]. simpl.
  intros [Ha Hs]%orb_false_elim. rewrite (IH Hs), orb_false_r.
  destruct (Ascii.eqb a old); [by apply Ascii.eqb_neq|done].
Qed.

Lemma sanitize_file_clean (s : string) :
  Str.has_char " " (sanitize_file s) = false
  ∧ Str.has_char "." (sanitize_file s) = false.
Proof.
  unfold sanitize_file. split.
  - by apply has_char_replace_same.
  - apply has_char_replace_other; [done|]. by apply has_char_replace_same.
Qed.

(** X14: parent paths are linked.  After construction on a root string
    without doubled separator, every child anywhere in the mirror has
    the [dir()] of the node it hangs under as parent path; [reload]
    keeps this as long as the root node's [dir()] is the root string, and
    every method ([__getattr__], [dir], [remove], [mkdir]) called on any
    node of the tree keeps it. *)
Theorem children_linked_preserved :
  (∀ root_dir listing,
     Str.contains "//" root_dir = false →
     everywhere children_linked (node (PathManager_init root_dir listing)))
  ∧ (∀ pm listing,
       dir (node pm) = root pm → everywhere children_linked (node pm) →
       everywhere children_linked (node (reload pm listing))
       ∧ dir (node (reload pm listing)) = root (reload pm listing))
  ∧ (∀ (P : Platform) (ks : list string) (m : method) (w : world)
       (o : outcome) (w' : world),
       everywhere children_linked (self w) → call_at ks m w = Some (o, w') →
       everywhere children_linked (self w')).
Proof.
  set (ok := λ (p : string) (f : Folder), dir f = p).
  assert (∀ n p, children_linked (mkFolder n p ∅ ∅)) as Hfresh
    by (intros n p k c Hk; cbn in Hk; by rewrite lookup_empty in Hk).
  assert (∀ f p n c, children_linked f → ok p f → name c = n →
                     parent_path c = p →
                     children_linked
                       (set_subfolders f
                          (<[sanitize_folder n := c]> (subfolders f))))
    as Hput.
  { intros f p n c Hf Hok _ Hp k x Hlk; cbn in Hlk;
      apply lookup_insert_Some in Hlk as [[_ <-]|[_ Hk]].
    - by rewrite Hp, <- Hok.
    - by apply (Hf k). }
  assert (∀ f k c c', children_linked f → subfolders f !! k = Some c →
                      name c' = name c → parent_path c' = parent_path c →
                      children_linked
                        (set_subfolders f (<[k := c']> (subfolders f))))
    as Hswap.
  { intros f k c c' Hf Hk _ Hp j x Hlk; cbn in Hlk;
      apply lookup_insert_Some in Hlk as [[<- <-]|[_ Hj]].
    - rewrite Hp. by apply (Hf k).
    - by apply (Hf j). }
  assert (∀ f k, children_linked f →
                 children_linked (set_subfolders f (delete k (subfolders f))))
    as Hdel.
  { intros f k Hf j x Hlk; cbn in Hlk;
      apply lookup_delete_Some in Hlk as [_ Hj]. by apply (Hf j). }
  split; [|split].
  - intros root_dir listing Hdouble. cbn [PathManager_init node].
    apply (everywhere_load children_linked ok); try done.
    + apply everywhere_fresh. done.
    + by apply split_join_root.
  - intros pm listing Hroot Hall. cbn [reload node root].
    split; [|by rewrite load_nested_dir].
    by apply (everywhere_load children_linked ok).
  - intros P ks m w o w'.
    by apply (everywhere_call_at children_linked ok).
Qed.

(** X15: keys are sanitized.  On every node of a freshly constructed
    mirror no subfolder key contains a space and no file key contains a
    space or a dot; [reload] and every method called on any node of the
    tree keep this. *)
Theorem keys_sanitized_preserved :
  (∀ root_dir listing,
     everywhere keys_sanitized (node (PathManager_init root_dir listing)))
  ∧ (∀ pm listing,
       everywhere keys_sanitized (node pm) →
       everywhere keys_sanitized (node (reload pm listing)))
  ∧ (∀ (P : Platform) (ks : list string) (m : method) (w : world)
       (o : outcome) (w' : world),
       everywhere keys_sanitized (self w) → call_at ks m w = Some (o, w') →
       everywhere keys_sanitized (self w')).
Proof.
  set (ok := λ (p : string) (f : Folder), True).
  assert (∀ n p, keys_sanitized (mkFolder n p ∅ ∅)) as Hfresh.
  { intros n p. split; intros k [x Hk]; cbn in Hk;
      by rewrite lookup_empty in Hk. }
  assert (∀ f p n c, keys_sanitized f → ok p f → name c = n →
                     parent_path c = p →
                     keys_sanitized
                       (set_subfolders f
                          (<[sanitize_folder n := c]> (subfolders f))))
    as Hput.
  { intros f p n c [Hsub Hfiles] _ _ _. split; [|done].
    intros k [x Hlk]; cbn in Hlk;
      apply lookup_insert_Some in Hlk as [[<- _]|[_ Hk]].
    - apply has_char_sanitize_folder.
    - apply Hsub. eauto. }
  assert (∀ f k c c', keys_sanitized f → subfolders f !! k = Some c →
                      name c' = name c → parent_path c' = parent_path c →
                      keys_sanitized
                        (set_subfolders f (<[k := c']> (subfolders f))))
    as Hswap.
  { intros f k c c' [Hsub Hfiles] Hk _ _. split; [|done].
    intros j [x Hlk]; cbn in Hlk;
      apply lookup_insert_Some in Hlk as [[<- _]|[_ Hj]]; apply Hsub; eauto. }
  assert (∀ f n path, keys_sanitized f →
                      keys_sanitized
                        (set_files f (<[sanitize_file n := path]> (files f))))
    as Hfile.
  { intros f n path [Hsub Hfiles]. split; [done|].
    intros k [x Hlk]; cbn in Hlk;
      apply lookup_insert_Some in Hlk as [[<- _]|[_ Hk]].
    - apply sanitize_file_clean.
    - apply Hfiles. eauto. }
  assert (∀ f k, keys_sanitized f →
                 keys_sanitized (set_subfolders f (delete k (subfolders f))))
    as Hdel.
  { intros f k [Hsub Hfiles]. split; [|done].
    intros j [x Hlk]; cbn in Hlk;
      apply lookup_delete_Some in Hlk as [_ Hj]. apply Hsub. eauto. }
  assert (∀ f k, keys_sanitized f →
                 keys_sanitized (set_files f (delete k (files f))))
    as Hdelf.
  { intros f k [Hsub Hfiles]. split; [done|].
    intros j [x Hlk]; cbn in Hlk;
      apply lookup_delete_Some in Hlk as [_ Hj]. apply Hfiles. eauto. }
  split; [|split].
  - intros root_dir listing. cbn [PathManager_init node].
    apply (everywhere_load keys_sanitized ok); try done.
    apply everywhere_fresh. done.
  - intros pm listing Hall. cbn [reload node].
    by apply (everywhere_load keys_sanitized ok).
  - intros P ks m w o w'.
    by apply (everywhere_call_at keys_sanitized ok).
Qed.

Lemma children_linked_preserved_witness :
  everywhere children_linked (node example_pm)
  ∧ ∃ o w', call_at ["Sub_One"] (Mkdir ["x"]) example_world = Some (o, w')
            ∧ everywhere children_linked (self w').
Proof.
  destruct children_linked_preserved as (Hinit & _ & Hcall).
  assert (everywhere children_linked (node example_pm)) as Hex
    by (apply (Hinit "/tmp/r" example_listing); reflexivity).
  split; [exact Hex|].
  destruct (call_at ["Sub_One"] (Mkdir ["x"]) example_world)
    as [[o w']|] eqn:E; [|vm_compute in E; discriminate].
  exists o, w'. split; [reflexivity|].
  exact (Hcall recording_platform ["Sub_One"] (Mkdir ["x"])
           example_world o w' Hex E).
Defined.

Lemma keys_sanitized_preserved_witness :
  everywhere keys_sanitized
    (node (reload example_pm [EDir "new dir" [EFile "b c.tar.gz"]]))
  ∧ ∃ o w', call_at [] (Mkdir ["my dir"]) example_world = Some (o, w')
            ∧ everywhere keys_sanitized (self w').
Proof.
  destruct keys_sanitized_preserved as (Hinit & Hreload & Hcall).
  pose proof (Hinit "/tmp/r" example_listing) as Hex.
  split; [by apply Hreload|].
  destruct (call_at [] (Mkdir ["my dir"]) example_world)
    as [[o w']|] eqn:E; [|vm_compute in E; discriminate].
  exists o, w'. split; [reflexivity|].
  exact (Hcall recording_platform [] (Mkdir ["my dir"])
           example_world o w' Hex E).
Defined.

(** ** More on loading *)

Lemma assign_app {V} (l1 l2 : list (string * V)) (m : gmap string V) :
  assign (l1 ++ l2) m = assign l2 (assign l1 m).
Proof. apply fold_left_app. Qed.

Lemma elem_of_fst {V} (l : list (string * V)) (k : string) :
  k ∈ l.*1 ↔ ∃ v, (k, v) ∈ l.
Proof.
  rewrite list_elem_of_fmap. split.
  - intros ([k' v] & -> & Hin). eauto.
  - intros [v Hin]. by exists (k, v).
Qed.

Lemma dom_assign {V} (l : list (string * V)) (m : gmap string V) :
  dom (assign l m) = list_to_set l.*1 ∪ dom m.
Proof.
  apply set_eq. intros k.
  rewrite elem_of_union, elem_of_list_to_set, !elem_of_dom.
  destruct (decide (k ∈ l.*1)) as [Hin|Hout].
  - destruct (assign_lookup_in_Some l m k Hin) as (v & _ & ->).
    split; [by left|eauto].
  - rewrite assign_lookup_notin by done. split; [by right|].
    by intros [?|?].
Qed.

Lemma assign_absorb {V} (l : list (string * V)) (m : gmap string V) :
  (∀ k, is_Some (m !! k) → k ∈ l.*1) → assign l m = assign l ∅.
Proof.
  intros Hkeys. apply map_eq. intros k.
  destruct (decide (k ∈ l.*1)) as [Hin|Hout].
  - by apply assign_lookup_in.
  - rewrite !assign_lookup_notin, lookup_empty by done.
    destruct (m !! k) eqn:E; [|done]. destruct Hout. apply Hkeys. eauto.
Qed.

Lemma assign_perm {V} (l l' : list (string * V)) (m : gmap string V) :
  l ≡ₚ l' → NoDup l.*1 → assign l m = assign l' m.
Proof.
  intros Hperm Hnd. apply map_eq. intros k.
  assert (NoDup l'.*1) as Hnd' by by rewrite <- Hperm.
  destruct (decide (k ∈ l.*1)) as [Hin|Hout].
  - apply elem_of_fst in Hin as [v Hv].
    rewrite (assign_lookup_nodup l m k v Hnd Hv).
    symmetry. apply assign_lookup_nodup; [done|]. by rewrite <- Hperm.
  - rewrite !assign_lookup_notin; [done| |done]. by rewrite <- Hperm.
Qed.

Lemma load_nested_app (p : string) (l1 l2 : list DirEntry) (f : Folder) :
  load_nested_directories p (l1 ++ l2) f
  = load_nested_directories p l2 (load_nested_directories p l1 f).
Proof. apply fold_left_app. Qed.

Lemma load_space_free (p : string) (listing : list DirEntry) (f : Folder) :
  space_free_keys f → space_free_keys (load_nested_directories p listing f).
Proof.
  intros Hkeys k Hk. rewrite load_nested_shape in Hk. cbn in Hk.
  destruct (decide (k ∈ dir_keys listing)) as [Hin|Hout].
  - apply dir_keys_elem in Hin as (n & children & _ & ->).
    apply has_char_sanitize_folder.
  - rewrite assign_lookup_notin in Hk by by rewrite dir_assigns_keys.
    by apply Hkeys.
Qed.

Lemma init_space_free (root_dir : string) (listing : list DirEntry) :
  space_free_keys (node (PathManager_init root_dir listing)).
Proof.
  apply load_space_free. intros k [c Hk]. cbn in Hk.
  by rewrite lookup_empty in Hk.
Qed.

(** X16: load then lookup, directories.  When no two directories of the
    root listing share a key, every directory [n] of the listing is found
    by the lookup of its sanitized name, as a node named [n] with the
    root string as parent path. *)
Theorem load_then_lookup_dir (root_dir n : string)
    (listing children : list DirEntry) :
  NoDup (dir_keys listing) → EDir n children ∈ listing →
  ∃ c, getattr (node (PathManager_init root_dir listing)) (sanitize_folder n)
       = Return (VFolder c)
       ∧ name c = n ∧ parent_path c = root_dir
       ∧ dir c = OsPath.join root_dir [n].
Proof.
  intros Hnd Hin. exists (load_dir root_dir n children).
  destruct (load_dir_frame root_dir n children) as [Hname Hparent].
  split; [|split; [done|split; [done|]]].
  - apply getattr_space_free_child; [apply init_space_free|].
    cbn [PathManager_init node]. rewrite load_nested_shape. cbn [subfolders].
    apply assign_lookup_nodup; [by rewrite dir_assigns_keys|].
    apply dir_assigns_elem. eauto.
  - unfold dir. by rewrite Hname, Hparent.
Qed.

(** X17: load then lookup, files.  When no two files of the root listing
    share a key, the lookup of the sanitized name of a file [n] gives
    [join(root, n)] if no directory of the listing has that key; if one
    has, the lookup gives a folder: a subfolder hides the file of the
    same key. *)
Theorem load_then_lookup_file (root_dir n : string) (listing : list DirEntry) :
  NoDup (file_keys listing) → EFile n ∈ listing →
  let self := node (PathManager_init root_dir listing) in
  (sanitize_file n ∉ dir_keys listing →
   getattr self (sanitize_file n) = Return (VStr (OsPath.join root_dir [n])))
  ∧ (sanitize_file n ∈ dir_keys listing →
     ∃ c, getattr self (sanitize_file n) = Return (VFolder c)).
Proof.
  intros Hnd Hin self.
  assert (subfolders self = assign (dir_assigns root_dir listing) ∅
          ∧ files self = assign (file_assigns root_dir listing) ∅)
    as [Hsub Hfiles].
  { subst self. cbn [PathManager_init node]. by rewrite load_nested_shape. }
  split.
  - intros Hout.
    assert (subfolders self !! sanitize_file n = None) as Hnone.
    { rewrite Hsub, assign_lookup_notin by by rewrite dir_assigns_keys.
      apply lookup_empty. }
    unfold getattr.
    rewrite (lookup_restored_none self (subfolders self) (sanitize_file n));
      [|apply init_space_free|done|done].
    rewrite Hnone, Hfiles.
    rewrite (assign_lookup_nodup _ _ (sanitize_file n)
               (OsPath.join root_dir [n])); [done| |].
    + by rewrite file_assigns_keys.
    + apply file_assigns_elem. eauto.
  - intros Hkey. rewrite <- (dir_assigns_keys root_dir) in Hkey.
    destruct (assign_lookup_in_Some _ (∅ : gmap string Folder) _ Hkey)
      as (c & _ & Hc).
    exists c. apply getattr_space_free_child; [apply init_space_free|].
    by rewrite Hsub.
Qed.

(** X18: the last one scanned wins.  Whatever was scanned before it and
    whatever the dictionaries held, a directory of a listing is what its
    key holds after the scan if no later directory of the listing has
    the same key, and likewise for a file. *)
Theorem load_last_wins (p n : string) (before after children : list DirEntry)
    (f : Folder) :
  (sanitize_folder n ∉ dir_keys after →
   subfolders (load_nested_directories p (before ++ EDir n children :: after) f)
     !! sanitize_folder n
   = Some (load_dir p n children))
  ∧ (sanitize_file n ∉ file_keys after →
     files (load_nested_directories p (before ++ EFile n :: after) f)
       !! sanitize_file n
     = Some (OsPath.join p [n])).
Proof.
  split; intros Hout.
  - rewrite load_nested_app, load_nested_cons, load_nested_shape.
    cbn [subfolders]. rewrite assign_lookup_notin
      by by rewrite dir_assigns_keys.
    rewrite load_entry_dir. cbn [subfolders set_subfolders].
    apply lookup_insert_eq.
  - rewrite load_nested_app, load_nested_cons, load_nested_shape.
    cbn [files]. rewrite assign_lookup_notin
      by by rewrite file_assigns_keys.
    rewrite load_entry_file. cbn [files set_files].
    apply lookup_insert_eq.
Qed.

Lemma load_prune_fold (p : string) (listing : list DirEntry) (f : Folder) :
  Forall (λ e, ∀ p f, load_nested_directories p (prune_entry e) f
                      = load_entry p f e) listing →
  load_nested_directories p (prune listing) f
  = load_nested_directories p listing f.
Proof.
  intros Hall. revert f. unfold prune.
  induction Hall as [|e listing He _ IH]; intros f; [done|].
  cbn [flat_map]. by rewrite load_nested_app, He, IH, load_nested_cons.
Qed.

Lemma load_prune_entry (e : DirEntry) (p : string) (f : Folder) :
  load_nested_directories p (prune_entry e) f = load_entry p f e.
Proof.
  revert p f. induction e as [n children IH|n|n] using DirEntry_nested_ind;
    intros p f; [|done..].
  cbn [prune_entry].
  change (load_nested_directories p [EDir n (flat_map prune_entry children)] f)
    with (load_entry p f (EDir n (prune children))).
  rewrite !load_entry_dir. unfold load_dir.
  by rewrite (load_prune_fold _ children).
Qed.

(** X19: an entry that is neither a directory nor a file leaves no trace:
    scanning a listing and scanning it with those entries taken out, at
    every depth, give the same mirror. *)
Theorem load_ignores_other_entries (p : string) (listing : list DirEntry)
    (f : Folder) (root_dir : string) :
  load_nested_directories p (prune listing) f
  = load_nested_directories p listing f
  ∧ PathManager_init root_dir (prune listing)
    = PathManager_init root_dir listing.
Proof.
  assert (∀ p f, load_nested_directories p (prune listing) f
                 = load_nested_directories p listing f) as Hprune.
  { intros p' f'. apply load_prune_fold, Forall_forall.
    intros e _ p'' f''. apply load_prune_entry. }
  split; [done|]. unfold PathManager_init. by rewrite Hprune.
Qed.

(** X20: the keys after a scan are the keys before it together with the
    keys of the listing, no more and no fewer; a freshly constructed
    manager has exactly the keys of its listing. *)
Theorem scan_key_sets (pm : PathManager) (root_dir : string)
    (listing : list DirEntry) :
  dom (subfolders (node (reload pm listing)))
  = list_to_set (dir_keys listing) ∪ dom (subfolders (node pm))
  ∧ dom (files (node (reload pm listing)))
    = list_to_set (file_keys listing) ∪ dom (files (node pm))
  ∧ dom (subfolders (node (PathManager_init root_dir listing)))
    = list_to_set (dir_keys listing)
  ∧ dom (files (node (PathManager_init root_dir listing)))
    = list_to_set (file_keys listing).
Proof.
  cbn [reload PathManager_init node]. rewrite !load_nested_shape.
  cbn [subfolders files].
  rewrite !dom_assign, !dir_assigns_keys, !file_assigns_keys.
  rewrite !dom_empty_L, !(right_id_L ∅ (∪)). done.
Qed.

(** X21: when every key of the listing a manager was constructed on is
    still a key of the new listing, [reload] gives exactly the manager
    that a fresh construction on the new listing gives. *)
Theorem reload_as_fresh (root_dir : string) (listing listing' : list DirEntry) :
  (∀ k, k ∈ dir_keys listing → k ∈ dir_keys listing') →
  (∀ k, k ∈ file_keys listing → k ∈ file_keys listing') →
  reload (PathManager_init root_dir listing) listing'
  = PathManager_init root_dir listing'.
Proof.
  intros Hdirs Hfiles. unfold reload, PathManager_init. cbn [root node].
  f_equal. rewrite !load_nested_shape.
  cbn [name parent_path subfolders files]. f_equal.
  - apply assign_absorb. intros k Hk. rewrite dir_assigns_keys.
    apply Hdirs. rewrite <- (dir_assigns_keys root_dir).
    destruct (decide (k ∈ (dir_assigns root_dir listing).*1)) as [|Hout];
      [done|].
    rewrite assign_lookup_notin, lookup_empty in Hk by done. by destruct Hk.
  - apply assign_absorb. intros k Hk. rewrite file_assigns_keys.
    apply Hfiles. rewrite <- (file_assigns_keys root_dir).
    destruct (decide (k ∈ (file_assigns root_dir listing).*1)) as [|Hout];
      [done|].
    rewrite assign_lookup_notin, lookup_empty in Hk by done. by destruct Hk.
Qed.

(** X22: when no two directories and no two files of a listing share a
    key, the order in which the entries are enumerated does not matter:
    any two enumerations of the same entries give the same mirror. *)
Theorem load_order_irrelevant (p : string) (listing listing' : list DirEntry)
    (f : Folder) :
  listing ≡ₚ listing' →
  NoDup (dir_keys listing) → NoDup (file_keys listing) →
  load_nested_directories p listing f = load_nested_directories p listing' f.
Proof.
  intros Hperm Hnd_d Hnd_f. rewrite !load_nested_shape. f_equal.
  - apply assign_perm; [|by rewrite dir_assigns_keys].
    unfold dir_assigns. by rewrite Hperm.
  - apply assign_perm; [|by rewrite file_assigns_keys].
    unfold file_assigns. by rewrite Hperm.
Qed.

Lemma load_then_lookup_dir_witness :
  ∃ c, getattr (node (PathManager_init "/tmp/r"
                        [EDir "my dir" []; EFile "my.file.txt"])) "my_dir"
       = Return (VFolder c)
       ∧ name c = "my dir" ∧ parent_path c = "/tmp/r"
       ∧ dir c = "/tmp/r/my dir".
Proof.
  apply (load_then_lookup_dir "/tmp/r" "my dir"
           [EDir "my dir" []; EFile "my.file.txt"] []).
  - apply (bool_decide_unpack _). vm_compute. exact I.
  - by left.
Defined.

Lemma load_then_lookup_file_witness :
  getattr (node (PathManager_init "/tmp/r"
                   [EDir "my dir" []; EFile "my.file.txt"])) "my_file_txt"
  = Return (VStr "/tmp/r/my.file.txt")
  ∧ ∃ c, getattr (node (PathManager_init "/tmp/r"
                          [EDir "my data" []; EFile "my.data"])) "my_data"
         = Return (VFolder c).
Proof.
  split.
  - apply (load_then_lookup_file "/tmp/r" "my.file.txt"
             [EDir "my dir" []; EFile "my.file.txt"]).
    + apply (bool_decide_unpack _). vm_compute. exact I.
    + right. by left.
    + apply (bool_decide_unpack _). vm_compute. exact I.
  - apply (load_then_lookup_file "/tmp/r" "my.data"
             [EDir "my data" []; EFile "my.data"]).
    + apply (bool_decide_unpack _). vm_compute. exact I.
    + right. by left.
    + by left.
Defined.

Lemma load_last_wins_witness :
  subfolders (load_nested_directories "/tmp/r"
                ([EDir "a b" [EFile "x"]] ++ EDir "a_b" [] :: [])
                (mkFolder "r" "/tmp" ∅ ∅)) !! "a_b"
  = Some (load_dir "/tmp/r" "a_b" []).
Proof.
  apply (load_last_wins "/tmp/r" "a_b" [EDir "a b" [EFile "x"]] [] []
           (mkFolder "r" "/tmp" ∅ ∅)).
  apply not_elem_of_nil.
Defined.

Lemma reload_as_fresh_witness :
  reload (PathManager_init "/tmp/r" example_listing)
    (example_listing ++ [EFile "new.txt"])
  = PathManager_init "/tmp/r" (example_listing ++ [EFile "new.txt"]).
Proof.
  apply (reload_as_fresh "/tmp/r" example_listing
           (example_listing ++ [EFile "new.txt"])).
  - intros k Hk. unfold dir_keys. rewrite omap_app.
    apply elem_of_app. by left.
  - intros k Hk. unfold file_keys. rewrite omap_app.
    apply elem_of_app. by left.
Defined.

Lemma load_order_irrelevant_witness :
  load_nested_directories "/tmp/r" [EDir "a" []; EFile "b"]
    (mkFolder "r" "/tmp" ∅ ∅)
  = load_nested_directories "/tmp/r" [EFile "b"; EDir "a" []]
      (mkFolder "r" "/tmp" ∅ ∅).
Proof.
  apply (load_order_irrelevant "/tmp/r" [EDir "a" []; EFile "b"]
           [EFile "b"; EDir "a" []]).
  - apply perm_swap.
  - apply (bool_decide_unpack _). vm_compute. exact I.
  - apply (bool_decide_unpack _). vm_compute. exact I.
Defined.

(** ** mkdir with the parent segment *)

Section ParentSegment.
Import OsPath.
Variable cwd : string.
Hypothesis cwd_abs : isabs cwd = true.

Lemma comp_ok_not_abs (s : string) : comp_ok s → Str.startswith sep s = false.
Proof.
  intros [Hne Hfree]. destruct s; [done|].
  simpl in *. by apply orb_false_elim in Hfree as [-> _].
Qed.

Lemma anchored_join2_comp (d s : string) :
  comp_ok s → anchored cwd (join2 d s) = join2 (anchored cwd d) s.
Proof.
  intros Hs. pose proof (comp_ok_not_abs s Hs) as Hrel.
  pose proof Hs as [Hsne Hfree].
  assert (cwd ≠ "") as Hcwd by (by destruct cwd).
  unfold anchored.
  change (join cwd [join2 d s]) with (join2 cwd (join2 d s)).
  change (join cwd [d]) with (join2 cwd d).
  destruct (String.eqb_spec d "") as [->|Hd].
  - assert (join2 "" s = s) as -> by (unfold join2; by rewrite Hrel).
    unfold isabs. rewrite Hrel. simpl Str.startswith. cbv iota.
    rewrite (join2_rel cwd s), (join2_rel cwd "") by done.
    destruct (Str.endswith sep cwd) eqn:Hend.
    + rewrite append_nil_r, join2_rel, Hend by done. done.
    + rewrite join2_rel; [|by intros [? _]%append_eq_nil|done].
      rewrite endswith_app_nonempty by done.
      change (Str.endswith sep (String sep "")) with true. cbv iota.
      by rewrite append_assoc.
  - assert (join2 d s = d +:+ (if Str.endswith sep d then s else String sep s))
      as Hds by (rewrite join2_rel by done; by destruct (Str.endswith sep d)).
    assert (isabs (join2 d s) = isabs d) as ->
      by (rewrite Hds; by apply startswith_app).
    destruct (isabs d) eqn:Hisabs; [done|].
    rewrite (join2_rel cwd d) by done.
    rewrite (join2_rel cwd (join2 d s))
      by (rewrite ?Hds, ?startswith_app; done).
    assert (∀ x, x ≠ "" → Str.endswith sep (x +:+ d) = Str.endswith sep d)
      as Hend by (intros; by apply endswith_app_nonempty).
    destruct (Str.endswith sep cwd).
    + rewrite (join2_rel (cwd +:+ d) s);
        [|by intros [? _]%append_eq_nil|done].
      rewrite Hend, Hds by done.
      destruct (Str.endswith sep d); by rewrite append_assoc.
    + rewrite (join2_rel (cwd +:+ String sep d) s);
        [|by intros [? _]%append_eq_nil|done].
      assert (Str.endswith sep (cwd +:+ String sep d) = Str.endswith sep d)
        as ->.
      { rewrite endswith_app_nonempty by done.
        exact (endswith_app_nonempty (String sep "") d Hd). }
      rewrite Hds.
      destruct (Str.endswith sep d);
        by rewrite !append_assoc, ?append_cons, ?append_nil_l.
Qed.

Lemma norm_comps_join2_comp (a s : string) :
  a ≠ "" → comp_ok s →
  norm_comps 1 (Str.split sep (join2 a s))
  = norm_step 1 (norm_comps 1 (Str.split sep a)) s.
Proof.
  intros Ha Hs. pose proof Hs as [_ Hfree].
  rewrite (join2_rel a s Ha (comp_ok_not_abs s Hs)).
  destruct (Str.endswith sep a) eqn:Hend.
  - apply endswith_sep_inv in Hend as [a0 ->].
    rewrite append_assoc, append_cons, append_nil_l.
    rewrite !split_app_sep, !norm_comps_app, (split_sep_free s Hfree).
    simpl. by rewrite norm_step_empty.
  - by rewrite split_app_sep, norm_comps_app, (split_sep_free s Hfree).
Qed.

Lemma norm_step_rooted_no_parent (acc : list string) (c : string) :
  ".." ∉ acc → ".." ∉ norm_step 1 acc c.
Proof.
  intros Hacc. unfold norm_step.
  destruct (String.eqb c "" || String.eqb c "."); [done|].
  destruct (String.eqb_spec c "..") as [->|Hc]; simpl.
  - destruct acc as [|x acc]; [done|]. simpl negb. cbv iota.
    destruct (String.eqb_spec (List.last (x :: acc) "") "..") as [Hlast|_].
    + destruct Hacc. rewrite <- Hlast. apply list_elem_of_In.
      destruct (@exists_last _ (x :: acc)) as (l' & y & E); [done|].
      rewrite E, last_last. apply in_or_app. right. by left.
    + simpl andb. cbv iota. intros Hin. apply Hacc.
      apply list_elem_of_In. apply list_elem_of_In in Hin.
      destruct (@exists_last _ (x :: acc)) as (l' & y & E); [done|].
      rewrite E in *. rewrite removelast_last in Hin.
      apply in_or_app. by left.
  - intros [?|?%list_elem_of_singleton]%elem_of_app; [done|]. by subst.
Qed.

Lemma norm_comps_rooted_no_parent (l : list string) : ".." ∉ norm_comps 1 l.
Proof.
  unfold norm_comps.
  assert (".." ∉ ([] : list string)) as Hacc by apply not_elem_of_nil.
  revert Hacc. generalize (@nil string) as acc.
  induction l as [|c l IH]; intros acc Hacc; [done|].
  simpl. by apply IH, norm_step_rooted_no_parent.
Qed.

Lemma norm_step_parent (acc : list string) :
  ".." ∉ acc → norm_step 1 acc ".." = removelast acc.
Proof.
  intros Hacc. unfold norm_step. simpl orb. cbv iota.
  destruct acc as [|x acc]; [done|]. simpl negb. simpl Nat.eqb. cbv iota.
  destruct (String.eqb_spec (List.last (x :: acc) "") "..") as [Hlast|_];
    [|done].
  destruct Hacc. rewrite <- Hlast. apply list_elem_of_In.
  destruct (@exists_last _ (x :: acc)) as (l' & y & E); [done|].
  rewrite E, last_last. apply in_or_app. right. by left.
Qed.

Lemma tail_list_parent (d : string) :
  tail_list cwd (join2 d "..") = removelast (tail_list cwd d).
Proof.
  assert (comp_ok "..") as Hok by (split; [discriminate|reflexivity]).
  rewrite !tail_list_abs by done.
  rewrite (anchored_join2_comp d ".." Hok).
  rewrite norm_comps_join2_comp; [| |done].
  - apply norm_step_parent, norm_comps_rooted_no_parent.
  - pose proof (anchored_isabs cwd d cwd_abs). by destruct (anchored cwd d).
Qed.

Lemma commonprefix_app_l (l r : list string) : commonprefix (l ++ r) l = l.
Proof.
  induction l as [|x l IH]; simpl; [by destruct r|].
  by rewrite String.eqb_refl, IH.
Qed.

Lemma relpath_parent (d : string) :
  tail_list cwd d ≠ [] → relpath cwd (join2 d "..") d = Some "..".
Proof.
  intros Hroot. unfold relpath.
  assert (String.eqb (join2 d "..") "" = false) as ->.
  { apply String.eqb_neq. unfold join2. simpl Str.startswith. simpl orb.
    destruct (String.eqb d ""); [done|].
    destruct (Str.endswith sep d); by intros [_ ?]%append_eq_nil. }
  cbv zeta. rewrite tail_list_parent.
  destruct (@exists_last _ (tail_list cwd d) Hroot) as (l' & y & ->).
  rewrite removelast_last, commonprefix_app_l, length_app.
  replace (length l' + length [y] - length l') with 1 by (simpl; lia).
  by rewrite drop_all.
Qed.

End ParentSegment.

Section MkdirParent.
Context `{Platform}.

(** X23: [mkdir("..")] puts the parent directory into the mirror as a
    child.  On a node whose directory is not the filesystem root and
    that has no [..] key, the create-chain primitive is called on
    [join(dir, "..")], and a node named [..], with the node's own
    [dir()] as parent path, is stored under the key [..]. *)
Theorem mkdir_parent_segment (w : world) (d : disk) :
  OsPath.tail_list getcwd (dir (self w)) ≠ [] →
  subfolders (self w) !! ".." = None →
  makedirs_exist_ok (OsPath.join (dir (self w)) [".."]) (fs w) = (true, d) →
  call (Mkdir [".."]) w =
    (Return VNone,
     mkWorld
       (set_subfolders (self w)
          (<[".." := mkFolder ".." (dir (self w)) ∅ ∅]> (subfolders (self w))))
       d (stdout w)).
Proof.
  intros Hroot Hkey Hd. unfold call, mkdir. rewrite Hd.
  change (OsPath.join (dir (self w)) [".."])
    with (OsPath.join2 (dir (self w)) "..").
  rewrite (relpath_parent getcwd getcwd_isabs) by done.
  change (Str.split OsPath.sep "..") with [".."].
  rewrite mkdir_walk_cons. unfold child_for.
  change (Str.replace " " "_" "..") with "..". by rewrite Hkey.
Qed.

End MkdirParent.

Lemma mkdir_parent_segment_witness :
  call (Mkdir [".."]) example_world =
    (Return VNone,
     mkWorld
       (set_subfolders (node example_pm)
          (<[".." := mkFolder ".." "/tmp/r" ∅ ∅]> (subfolders (node example_pm))))
       [Makedirs "/tmp/r/.."] []).
Proof.
  apply (mkdir_parent_segment example_world [Makedirs "/tmp/r/.."]).
  - vm_compute. discriminate.
  - vm_compute. reflexivity.
  - vm_compute. reflexivity.
Defined.

(** ** Exceptions *)

Section Exceptions.
Context `{Platform}.

(** X24: a method that raises has not touched the mirror: whenever a
    call on a node ends in an exception ([AttributeError] from the
    lookup, [OSError] from a primitive, [ValueError] from [relpath]),
    the node is exactly as before the call and nothing was printed. *)
Theorem raise_leaves_mirror (m : method) (w w' : world) (e : exn) :
  call m w = (Raise e, w') → self w' = self w ∧ stdout w' = stdout w.
Proof.
  destruct m as [item| |target|args]; simpl.
  - by intros [= _ <-].
  - done.
  - unfold remove.
    destruct (subfolders (self w) !! _) as [sub|].
    { destruct (rmtree _ _) as [[] d]; [done|]. by intros [= _ <-]. }
    destruct (files (self w) !! _) as [path|]; [|done].
    destruct (os_remove _ _) as [[] d]; [done|]. by intros [= _ <-].
  - unfold mkdir. destruct (makedirs_exist_ok _ _) as [[] d].
    + destruct (OsPath.relpath _ _ _) as [rel|]; [done|]. by intros [= _ <-].
    + by intros [= _ <-].
Qed.

End Exceptions.

Lemma raise_leaves_mirror_witness :
  self (snd (call (Getattr "missing") example_world)) = node example_pm
  ∧ stdout (snd (call (Getattr "missing") example_world)) = [].
Proof.
  apply (raise_leaves_mirror (Getattr "missing") example_world
           (snd (call (Getattr "missing") example_world))
           (AttributeError "'missing' not found in folder 'r'")).
  vm_compute. reflexivity.
Defined.
